(** * Annan-Shogi-Web: state projection and move notation of [server.py]

    A shallow embedding of the API server's notation synthesizer
    ([_generate_kif_and_log]), state projector ([_game_state_to_json]) and
    request dispatch ([AnnanHandler.do_POST]), with the properties of the
    specification stated and proved against it.

    Python strings are embedded as [string] holding their UTF-8 encoding;
    the ASCII characters the properties talk about (newline, parentheses,
    digits) are single bytes that occur in no multi-byte glyph.  Python
    integers are [Z].  A Python call that may raise is a computation in the
    [result] monad. *)

From Stdlib Require Import ZArith String Ascii List DecimalString Lia.
From stdpp Require Import gmap strings list fin_maps.

Local Open Scope Z_scope.

(** ** Python run-time fragments used by the server *)

Module Py.

(** The exceptions the modelled code can raise.  [EngineError] stands for
    whatever a collaborator, the rules engine or a library call, raises; it
    carries [str(e)]. *)
Inductive exn : Type :=
| IndexError
| KeyError (key : string)
| AttributeError (attr : string)
| EngineError (msg : string).

Inductive result (A : Type) : Type :=
| Ok (a : A)
| Raise (e : exn).
Arguments Ok {A} a.
Arguments Raise {A} e.

#[export] Instance result_ret : MRet result := fun _ a => Ok a.
#[export] Instance result_bind : MBind result := fun _ _ f m =>
  match m with
  | Ok a => f a
  | Raise e => Raise e
  end.

(** [str(e)] *)
Definition str_exn (e : exn) : string :=
  match e with
  | IndexError => "list index out of range"
  | KeyError key => "'" +:+ key +:+ "'"
  | AttributeError attr => "'NoneType' object has no attribute '" +:+ attr +:+ "'"
  | EngineError msg => msg
  end.

(** [l[i]] on a list: negative indices count from the end, anything
    outside [-len, len) raises. *)
Definition list_getitem {A : Type} (l : list A) (i : Z) : result A :=
  let n := Z.of_nat (length l) in
  let j := if i <? 0 then i + n else i in
  if (j <? 0) || (n <=? j) then Raise IndexError
  else match l !! Z.to_nat j with
       | Some a => Ok a
       | None => Raise IndexError
       end.

(** [d[k]] on a dict with string keys. *)
Definition dict_getitem {A : Type} (d : gmap string A) (k : string) : result A :=
  match d !! k with
  | Some a => Ok a
  | None => Raise (KeyError k)
  end.

(** [str(n)] for an int. *)
Definition str_int (n : Z) : string := NilZero.string_of_int (Z.to_int n).

Fixpoint spaces (n : nat) : string :=
  match n with
  | O => ""
  | S n' => String " " (spaces n')
  end.

(** [f"{s:>w}"] *)
Definition rjust (w : nat) (s : string) : string :=
  spaces (w - String.length s) +:+ s.

(** [sep.join(l)] *)
Fixpoint join (sep : string) (l : list string) : string :=
  match l with
  | [] => ""
  | [x] => x
  | x :: l' => x +:+ sep +:+ join sep l'
  end.

Definition nl : ascii := "010"%char.

(** [s.split("\n")] *)
Fixpoint split_nl (s : string) : list string :=
  match s with
  | EmptyString => [EmptyString]
  | String c s' =>
      if Ascii.eqb c nl then EmptyString :: split_nl s'
      else match split_nl s' with
           | l :: ls => String c l :: ls
           | [] => [String c EmptyString]
           end
  end.

(** [s.count(c)] for a one-character [c]. *)
Fixpoint count_char (c : ascii) (s : string) : nat :=
  match s with
  | EmptyString => O
  | String c' s' => ((if Ascii.eqb c' c then 1 else 0) + count_char c s')%nat
  end.

End Py.
Import Py.

(** ** The rules engine's data, as the server reads it

    The engine ([annan_shogi]) is an external collaborator whose classes are
    not part of this repository; each is given with the attributes the
    server reads. *)

(** Modelled from the spec: the two sides, [Color.BLACK] and [Color.WHITE]. *)
Inductive Color : Type := BLACK | WHITE.

(** Modelled from the spec: the engine's [PieceType] enumeration is not part
    of this repository; its members are the piece-kind identifiers that key
    the server's Piece Notation Table, [OU] being the royal piece. *)
Inductive PieceType : Type :=
| FU | KY | KE | GI | KI | KA | HI | OU | TO | NY | NK | NG | UM | RY.

(** [PieceType.value] *)
Definition value (pt : PieceType) : string :=
  match pt with
  | FU => "FU" | KY => "KY" | KE => "KE" | GI => "GI"
  | KI => "KI" | KA => "KA" | HI => "HI" | OU => "OU"
  | TO => "TO" | NY => "NY" | NK => "NK" | NG => "NG"
  | UM => "UM" | RY => "RY"
  end.

#[export] Instance PieceType_eq_dec : EqDecision PieceType.
Proof. solve_decision. Defined.

#[export] Instance Color_eq_dec : EqDecision Color.
Proof. solve_decision. Defined.

(** Modelled from the spec: [Square(file, rank)], an immutable (file, rank)
    pair; a plain value object, compared by value and, like every object
    without [__bool__] or [__len__], truthy. *)
Record Square : Type := mkSquare { file : Z; rank : Z }.

#[export] Instance Square_eq_dec : EqDecision Square.
Proof. solve_decision. Defined.

(** Modelled from the spec: a piece, with its nominal kind and owning side. *)
Record Piece : Type := mkPiece { piece_type : PieceType; color : Color }.

(** Modelled from the spec: the board; [board[sq]] is a piece or [None]. *)
Definition Board : Type := Square -> option Piece.

(** Modelled from the spec: a board state, with its board and the side to
    move. *)
Record State : Type := mkState { board : Board; turn : Color }.

(** Modelled from the spec: a move is a drop ([is_drop], with the kind
    [drop] placed on [dst]) or a board move (from [src] to [dst], with the
    flag [promote]). *)
Inductive Move : Type :=
| DropMove (drop : PieceType) (dst : Square)
| BoardMove (src dst : Square) (promote : bool).

Definition is_drop (m : Move) : bool :=
  match m with
  | DropMove _ _ => true
  | BoardMove _ _ _ => false
  end.

Definition dst (m : Move) : Square :=
  match m with
  | DropMove _ d => d
  | BoardMove _ d _ => d
  end.

(** Modelled from the spec: the session, with the attributes of [Game] the
    server reads directly: the move history, the parallel list of pre-move
    snapshots, the current state, and [game.result.value] as
    [result_value]. *)
Record Game : Type := mkGame {
  _move_history : list Move;
  _state_history : list State;
  state : State;
  result_value : string;
}.

(** ** Notation tables *)

Definition _PIECE_KANJI : gmap string string :=
  list_to_map [
    ("FU", "歩"); ("KY", "香"); ("KE", "桂"); ("GI", "銀");
    ("KI", "金"); ("KA", "角"); ("HI", "飛"); ("OU", "玉");
    ("TO", "と"); ("NY", "杏"); ("NK", "圭"); ("NG", "全");
    ("UM", "馬"); ("RY", "龍")
  ].

Definition _ZENKAKU_NUMS : list string :=
  [""; "１"; "２"; "３"; "４"; "５"; "６"; "７"; "８"; "９"].

Definition _KANJI_NUMS : list string :=
  [""; "一"; "二"; "三"; "四"; "五"; "六"; "七"; "八"; "九"].

(** ** Notation synthesizer: [_generate_kif_and_log] *)

Definition kif_header : list string :=
  [ "# KIF形式棋譜ファイル";
    "手合割：平手";
    "先手：プレイヤー";
    "後手：プレイヤー(またはAI)";
    "手数----指手---------消費時間--" ].

Definition same_token : string := "同　".

(** [prev_dst and prev_dst == m.dst] *)
Definition same_as_prev (prev_dst : option Square) (d : Square) : bool :=
  match prev_dst with
  | None => false
  | Some p => bool_decide (p = d)
  end.

Definition turn_mark (st : State) : string :=
  match turn st with
  | BLACK => "☗"
  | WHITE => "☖"
  end.

(** The body of the loop for one move: [(move_str_kif, move_str_log)]. *)
Definition move_strs (prev_dst : option Square) (st : State) (m : Move)
  : result (string * string) :=
  match m with
  | DropMove drop d =>
      let dst_f := file d in
      let dst_r := rank d in
      pc_str ← dict_getitem _PIECE_KANJI (value drop);
      zf ← list_getitem _ZENKAKU_NUMS dst_f;
      kr ← list_getitem _KANJI_NUMS dst_r;
      let move_str_kif := zf +:+ kr +:+ pc_str +:+ "打" in
      let move_str_log := turn_mark st +:+ zf +:+ kr +:+ pc_str +:+ "打" in
      mret (move_str_kif, move_str_log)
  | BoardMove src d promote =>
      pc ← match board st src with
           | Some pc => Ok pc
           | None => Raise (AttributeError "piece_type")
           end;
      pc_str ← dict_getitem _PIECE_KANJI (value (piece_type pc));
      let promote_str := if promote then "成" else "" in
      dst_str ← (if same_as_prev prev_dst d then Ok same_token
                 else zf ← list_getitem _ZENKAKU_NUMS (file d);
                      kr ← list_getitem _KANJI_NUMS (rank d);
                      mret (zf +:+ kr));
      let src_str := "(" +:+ str_int (file src) +:+ str_int (rank src) +:+ ")" in
      let move_str_kif := dst_str +:+ pc_str +:+ promote_str +:+ src_str in
      zf ← list_getitem _ZENKAKU_NUMS (file d);
      kr ← list_getitem _KANJI_NUMS (rank d);
      let move_str_log :=
        turn_mark st +:+ zf +:+ kr +:+ pc_str +:+ promote_str +:+ src_str in
      mret (move_str_kif, move_str_log)
  end.

(** The loop over [enumerate(game._move_history)], from index [i] on, with
    the cursor [prev_dst] and the two accumulators. *)
Fixpoint kif_loop (g : Game) (i : nat) (ms : list Move)
    (prev_dst : option Square) (log_arr kif_lines : list string)
  : result (list string * list string) :=
  match ms with
  | [] => Ok (log_arr, kif_lines)
  | m :: ms' =>
      st ← list_getitem (_state_history g) (Z.of_nat i);
      let move_num := Z.of_nat i + 1 in
      '(move_str_kif, move_str_log) ← move_strs prev_dst st m;
      kif_loop g (S i) ms' (Some (dst m))
        (log_arr ++ [move_str_log])
        (kif_lines ++ [rjust 4 (str_int move_num) +:+ " " +:+ move_str_kif])
  end.

Definition _generate_kif_and_log (g : Game) : result (list string * string) :=
  '(log_arr, kif_lines) ← kif_loop g 0 (_move_history g) None [] kif_header;
  mret (log_arr, join (String nl EmptyString) kif_lines).

(** ** The collaborators' interfaces *)

(** A decoded JSON value, as [json.loads] returns it. *)
#[warnings="-register-all"] Inductive JsonValue : Type :=
| JNull
| JBool (b : bool)
| JInt (n : Z)
| JFloat (mantissa exponent : Z)
| JStr (s : string)
| JList (l : list JsonValue)
| JDict (items : list (string * JsonValue)).

(** [v == s] for a string literal [s] *)
Definition json_eq_str (v : JsonValue) (s : string) : bool :=
  match v with
  | JStr s' => bool_decide (s' = s)
  | _ => false
  end.

(** [game.apply] takes a move token from the request or a move object from
    the agent. *)
Inductive ApplyArg : Type :=
| ArgJson (v : JsonValue)
| ArgMove (m : Move).

(** The calls into the rules engine, a parameter of the development.  The
    effective-type query, [apply] and [undo] may raise, and then leave the
    game as it was; the effective-type query may also return [None]; the
    other calls are taken to return. *)
Class RulesEngine : Type := {
  (** [get_effective_piece_type(board, sq, color)] *)
  get_effective_piece_type : Board -> Square -> Color -> result (option PieceType);
  (** [game.get_legal_moves()] *)
  get_legal_moves : Game -> list Move;
  (** [m.to_sfen()] *)
  to_sfen : Move -> string;
  (** [game.stand(color).items()] *)
  stand : Game -> Color -> list (PieceType * Z);
  (** [game.in_check()] *)
  in_check : Game -> bool;
  (** [game.ply()] *)
  ply : Game -> Z;
  (** [str(game.turn)] *)
  turn_str : Game -> string;
  (** [Game()] *)
  Game_new : Game;
  (** [game.apply(x)] *)
  apply : Game -> ApplyArg -> result Game;
  (** [game.undo()] *)
  undo : Game -> result Game;
  (** [game.resign()] *)
  resign : Game -> Game;
}.

(** The move-selection agent: [select_move(state, temperature)] returns a
    pair whose first component, a move or [None], is all the server uses. *)
Record AIPlayer : Type := mkAIPlayer {
  select_move : State -> Z -> option Move;
}.

(** ** State projector: [_game_state_to_json] *)

Record BoardCell : Type := mkBoardCell {
  cell_type : string;
  cell_kanji : string;
  cell_color : string;
}.

Record AnnanCell : Type := mkAnnanCell {
  effective_type : string;
  effective_kanji : string;
}.

Record Payload : Type := mkPayload {
  js_board : list (list (option BoardCell));
  js_annan_info : list (list (option AnnanCell));
  js_turn : string;
  js_black_hand : gmap string Z;
  js_white_hand : gmap string Z;
  js_legal_moves : list string;
  js_in_check : bool;
  js_result : string;
  js_ply : Z;
  js_ai_enabled : bool;
  js_ai_color : option string;
  js_log : list string;
  js_kif : string;
}.

(** The process-wide globals of the module. *)
Record Server : Type := mkServer {
  game : Game;
  ai_color : option string;
  ai_player : option AIPlayer;
}.

(** [try: body except Exception: handler] *)
Definition try_except {A : Type} (body : result A) (handler : exn -> A) : A :=
  match body with
  | Ok a => a
  | Raise e => handler e
  end.

(** [range(9)] and [range(9, 0, -1)] *)
Definition ranks : list Z := seqZ 0 9.
Definition files : list Z := reverse (seqZ 1 9).

Section Projector.
Context {E : RulesEngine}.

(** The annotation appended for an occupied square. *)
Definition annan_cell (st : State) (sq : Square) (piece : Piece) : option AnnanCell :=
  if bool_decide (piece_type piece <> OU) then
    try_except
      (eff ← get_effective_piece_type (board st) sq (color piece);
       if bool_decide (eff <> Some (piece_type piece)) then
         e ← match eff with
             | Some e => Ok e
             | None => Raise (AttributeError "value")
             end;
         kanji ← dict_getitem _PIECE_KANJI (value e);
         mret (Some {| effective_type := value e; effective_kanji := kanji |})
       else mret None)
      (fun _ => None)
  else None.

(** The inner loop, over the files of one rank. *)
Fixpoint file_loop (st : State) (rank : Z) (fs : list Z)
    (row : list (option BoardCell)) (annan_row : list (option AnnanCell))
  : result (list (option BoardCell) * list (option AnnanCell)) :=
  match fs with
  | [] => Ok (row, annan_row)
  | file :: fs' =>
      let sq := mkSquare file rank in
      match board st sq with
      | None => file_loop st rank fs' (row ++ [None]) (annan_row ++ [None])
      | Some piece =>
          kanji ← dict_getitem _PIECE_KANJI (value (piece_type piece));
          let cell := {| cell_type := value (piece_type piece);
                         cell_kanji := kanji;
                         cell_color := match color piece with
                                       | BLACK => "BLACK"
                                       | WHITE => "WHITE"
                                       end |} in
          file_loop st rank fs' (row ++ [Some cell])
            (annan_row ++ [annan_cell st sq piece])
      end
  end.

(** The outer loop, over the ranks. *)
Fixpoint rank_loop (st : State) (rs : list Z)
    (board_data : list (list (option BoardCell)))
    (annan_info : list (list (option AnnanCell)))
  : result (list (list (option BoardCell)) * list (list (option AnnanCell))) :=
  match rs with
  | [] => Ok (board_data, annan_info)
  | rank :: rs' =>
      '(row, annan_row) ← file_loop st rank files [] [];
      rank_loop st rs' (board_data ++ [row]) (annan_info ++ [annan_row])
  end.

(** [{pt.value: n for pt, n in items}] *)
Definition hand_dict (items : list (PieceType * Z)) : gmap string Z :=
  foldl (fun d '(pt, n) => <[value pt := n]> d) ∅ items.

Definition _game_state_to_json (s : Server) : result Payload :=
  let st := state (game s) in
  '(board_data, annan_info) ← rank_loop st ranks [] [];
  let legal_moves :=
    if bool_decide (result_value (game s) = "ONGOING")
    then foldl (fun acc m => acc ++ [to_sfen m]) [] (get_legal_moves (game s))
    else [] in
  let black_hand := hand_dict (stand (game s) BLACK) in
  let white_hand := hand_dict (stand (game s) WHITE) in
  '(log_arr, kif_str) ← _generate_kif_and_log (game s);
  mret {| js_board := board_data;
          js_annan_info := annan_info;
          js_turn := turn_str (game s);
          js_black_hand := black_hand;
          js_white_hand := white_hand;
          js_legal_moves := legal_moves;
          js_in_check := in_check (game s);
          js_result := result_value (game s);
          js_ply := ply (game s);
          js_ai_enabled := bool_decide (ai_player s <> None);
          js_ai_color := ai_color s;
          js_log := log_arr;
          js_kif := kif_str |}.

(** ** Session controller: [AnnanHandler.do_POST] *)

Inductive Body : Type :=
| StateJson (p : Payload)
| ErrorJson (error : string)
| ConfigJson (status : string) (ai_color : option string).

Record Response : Type := mkResponse { status : Z; body : Body }.

(** [self._json_response(data, status)] *)
Definition _json_response (data : Body) (status : Z) : Response :=
  {| status := status; body := data |}.

Definition with_game (s : Server) (g : Game) : Server :=
  {| game := g; ai_color := ai_color s; ai_player := ai_player s |}.

Definition with_ai_color (s : Server) (c : option string) : Server :=
  {| game := game s; ai_color := c; ai_player := ai_player s |}.

(** [body.get(key, default)] *)
Definition dict_get (body : gmap string JsonValue) (key : string) (default : JsonValue)
  : JsonValue :=
  match body !! key with
  | Some v => v
  | None => default
  end.

(** The operations of [AnnanHandler.do_POST], once the body is decoded:
    [path] is the request path and [req] the dict that the move and the
    configuration branch read with [body.get]; the other branches read no
    body.  The result is the globals after the request, and the response
    sent or the exception that escaped the handler.  Reading and decoding
    the body, which may raise before any operation runs, is [_read_body]
    and [do_POST_raw] below. *)
Definition do_POST (path : string) (req : gmap string JsonValue) (s : Server)
  : Server * result Response :=
  if bool_decide (path = "/api/move") then
    let sfen := dict_get req "move" (JStr "") in
    match apply (game s) (ArgJson sfen) with
    | Ok g' =>
        let s' := with_game s g' in
        (s', Ok (try_except
                   (p ← _game_state_to_json s'; mret (_json_response (StateJson p) 200))
                   (fun e => _json_response (ErrorJson (str_exn e)) 400)))
    | Raise e => (s, Ok (_json_response (ErrorJson (str_exn e)) 400))
    end
  else if bool_decide (path = "/api/undo") then
    match undo (game s) with
    | Ok g' =>
        let s' := with_game s g' in
        (s', Ok (try_except
                   (p ← _game_state_to_json s'; mret (_json_response (StateJson p) 200))
                   (fun e => _json_response (ErrorJson (str_exn e)) 400)))
    | Raise e => (s, Ok (_json_response (ErrorJson (str_exn e)) 400))
    end
  else if bool_decide (path = "/api/resign") then
    let s' := with_game s (resign (game s)) in
    (s', p ← _game_state_to_json s'; mret (_json_response (StateJson p) 200))
  else if bool_decide (path = "/api/reset") then
    let s' := with_game s Game_new in
    (s', p ← _game_state_to_json s'; mret (_json_response (StateJson p) 200))
  else if bool_decide (path = "/api/config") then
    let ai_mode := dict_get req "ai_mode" JNull in
    let s' :=
      if json_eq_str ai_mode "black" then with_ai_color s (Some "BLACK")
      else if json_eq_str ai_mode "white" then with_ai_color s (Some "WHITE")
      else with_ai_color s None in
    (s', Ok (_json_response (ConfigJson "ok" (ai_color s')) 200))
  else if bool_decide (path = "/api/ai_move") then
    match ai_player s with
    | None => (s, Ok (_json_response (ErrorJson "AIが有効ではありません") 400))
    | Some player =>
        if bool_decide (result_value (game s) <> "ONGOING") then
          (s, Ok (_json_response (ErrorJson "ゲーム終了済み") 400))
        else
          match select_move player (state (game s)) 0 with
          | Some move =>
              match apply (game s) (ArgMove move) with
              | Ok g' =>
                  let s' := with_game s g' in
                  (s', p ← _game_state_to_json s';
                       mret (_json_response (StateJson p) 200))
              | Raise e => (s, Raise e)
              end
          | None =>
              (s, p ← _game_state_to_json s; mret (_json_response (StateJson p) 200))
          end
    end
  else (s, Ok (_json_response (ErrorJson "不明なエンドポイント") 404)).

(** What a GET request is answered with: a JSON response of the API, or
    whatever the static file handler of the base class does with the path. *)
Inductive GetOutcome : Type :=
| ApiResponse (r : Response)
| StaticFile (path : string).

(** [AnnanHandler.do_GET]: [path] is the request path. *)
Definition do_GET (path : string) (s : Server) : result GetOutcome :=
  if bool_decide (path = "/api/state") then
    p ← _game_state_to_json s;
    mret (ApiResponse (_json_response (StateJson p) 200))
  else Ok (StaticFile path).

End Projector.

(** ** The request body: [_read_body] *)

(** The library calls of [_read_body], parameters of the development:
    [int(h)] on the text of the [Content-Length] header, and
    [json.loads(raw.decode("utf-8"))] on the bytes read.  Both may raise. *)
Class PyLib : Type := {
  py_int : string -> result Z;
  json_loads : string -> result JsonValue;
}.

(** The request as the handler reads it: the [Content-Length] header, if
    there is one, and [self.rfile.read]. *)
Record Request : Type := mkRequest {
  content_length : option string;
  rfile_read : Z -> string;
}.

(** The dict of a decoded JSON object. *)
Definition dict_of_items (items : list (string * JsonValue)) : gmap string JsonValue :=
  foldl (fun d '(k, v) => <[k := v]> d) ∅ items.

(** What [body.get] is called on: only a dict has the method. *)
Definition body_dict (body : JsonValue) : result (gmap string JsonValue) :=
  match body with
  | JDict items => Ok (dict_of_items items)
  | _ => Raise (AttributeError "get")
  end.

Section Handler.
Context {E : RulesEngine} {L : PyLib}.

(** [self._read_body()]: the header defaults to the integer 0, and a
    length of 0 gives the empty dict without reading. *)
Definition _read_body (rq : Request) : result JsonValue :=
  len ← match content_length rq with
        | Some h => py_int h
        | None => Ok 0
        end;
  if bool_decide (len = 0) then Ok (JDict [])
  else json_loads (rfile_read rq len).

(** [AnnanHandler.do_POST] from the request as received: the move and the
    configuration branch first read the body and call [body.get] on it,
    outside any [try]; the other branches do not read it. *)
Definition do_POST_raw (path : string) (rq : Request) (s : Server)
  : Server * result Response :=
  if bool_decide (path = "/api/move") || bool_decide (path = "/api/config") then
    match _read_body rq ≫= body_dict with
    | Ok req => do_POST path req s
    | Raise e => (s, Raise e)
    end
  else do_POST path ∅ s.

End Handler.

(** * Vocabulary of the properties *)

(** ** Characters and glyphs *)

(** The characters of a decimal numeral. *)
Definition numeral_char (c : ascii) : bool :=
  bool_decide (c ∈ ["0"; "1"; "2"; "3"; "4"; "5"; "6"; "7"; "8"; "9"; "-"]%char).

(** The characters that structure a transcript: the line break and the two
    parentheses of the source suffix. *)
Definition markup_char (c : ascii) : Prop :=
  c = nl \/ c = "("%char \/ c = ")"%char.

(** A string without markup characters. *)
Definition plain (s : string) : Prop :=
  forall c, markup_char c -> count_char c s = O.

(** A string that, whatever follows it, does not start with the same-square
    token. *)
Definition not_same_start (s : string) : Prop :=
  forall rest, String.prefix same_token (s +:+ rest) = false.

(** The parenthesized raw source coordinates of a board move. *)
Definition src_suffix (src : Square) : string :=
  "(" +:+ str_int (file src) +:+ str_int (rank src) +:+ ")".

(** The promotion marker. *)
Definition promote_mark (promote : bool) : string :=
  if promote then "成" else "".

(** ** Lines of the transcript *)

(** The destination cursor when move [i] is rendered: unset before the
    first move, the destination of move [i-1] afterwards. *)
Definition prev_dst_at (ms : list Move) (i : nat) : option Square :=
  match i with
  | O => None
  | S j => dst <$> ms !! j
  end.

(** A numbered transcript line. *)
Definition kif_line (i : nat) (k : string) : string :=
  rjust 4 (str_int (Z.of_nat i + 1)) +:+ " " +:+ k.

(** [formal_rendering kif i r]: the transcript line of move [i], the one
    after the five header lines and the lines of the moves before it, is
    the move number followed by [r]. *)
Definition formal_rendering (kif : string) (i : nat) (r : string) : Prop :=
  split_nl kif !! (5 + i)%nat = Some (kif_line i r).

(** Move [i] lands on the square on which move [i-1] landed. *)
Definition repeats_destination (ms : list Move) (i : nat) (m : Move) : Prop :=
  exists j p, i = S j /\ ms !! j = Some p /\ dst p = dst m.

(** [returns r]: the call completes without raising. *)
Definition returns {A : Type} (r : result A) : Prop := exists a, r = Ok a.

(** ** Well-formed histories

    The session invariant of the data model: one snapshot per move, every
    destination a square of the board, and the source square of a board move
    occupied in the snapshot taken before it. *)

Definition in_domain (sq : Square) : bool :=
  (1 <=? file sq) && (file sq <=? 9) && (0 <=? rank sq) && (rank sq <=? 8).

Definition wf_move (st : State) (m : Move) : bool :=
  in_domain (dst m) &&
  match m with
  | DropMove _ _ => true
  | BoardMove src _ _ => match board st src with Some _ => true | None => false end
  end.

Definition wf_history (g : Game) : Prop :=
  Forall2 (fun st m => wf_move st m = true) (_state_history g) (_move_history g).

(** ** Projection and requests *)

(** The annotation of a square: nothing on an empty square, and what
    [annan_cell] computes on an occupied one. *)
Definition annotation `{E : RulesEngine} (st : State) (sq : Square) : option AnnanCell :=
  match board st sq with
  | None => None
  | Some piece => annan_cell st sq piece
  end.

(** The two failures of the request-AI-move operation, as the handler
    reports them. *)
Definition AIUnavailable : Response :=
  _json_response (ErrorJson "AIが有効ではありません") 400.

Definition GameAlreadyOver : Response :=
  _json_response (ErrorJson "ゲーム終了済み") 400.

(** ** Domain of the synthesizer *)

(** An index the two ten-entry coordinate tables accept: Python counts
    negative indices from the end. *)
Definition indexable (z : Z) : bool := (-10 <=? z) && (z <? 10).

(** A move the loop body can render from a snapshot: both destination
    coordinates index the tables and, for a board move, the source square
    is occupied in the snapshot. *)
Definition renderable (st : State) (m : Move) : bool :=
  indexable (file (dst m)) && indexable (rank (dst m)) &&
  match m with
  | DropMove _ _ => true
  | BoardMove src _ _ => match board st src with Some _ => true | None => false end
  end.

(** The destination cursor after the moves [ms], started at [prev]. *)
Definition cursor_after (prev : option Square) (ms : list Move) : option Square :=
  foldl (fun _ m => Some (dst m)) prev ms.

(** The board cell of a piece. *)
Definition board_cell_of (piece : Piece) : option BoardCell :=
  glyph ← _PIECE_KANJI !! value (piece_type piece);
  Some {| cell_type := value (piece_type piece);
          cell_kanji := glyph;
          cell_color := match color piece with
                        | BLACK => "BLACK"
                        | WHITE => "WHITE"
                        end |}.

(** The paths [do_POST] routes. *)
Definition api_paths : list string :=
  ["/api/move"; "/api/undo"; "/api/resign"; "/api/reset"; "/api/config"; "/api/ai_move"].

(** ** Sample session

    Six plies: two pawn pushes, a bishop capture with promotion, the
    recapture on the same square, and two drops, the second on the square
    of the first. *)
Module Sample.

Definition board_of (pieces : list (Square * Piece)) : Board :=
  fun sq => (snd ∘ snd) <$> list_find (fun e => bool_decide (fst e = sq)) pieces.

Definition at_ (f r : Z) (pt : PieceType) (c : Color) : Square * Piece :=
  (mkSquare f r, mkPiece pt c).

(** The pieces that stay where they are: the kings, a rook with a pawn in
    front of it, and a lance on White's back rank. *)
Definition settled : list (Square * Piece) :=
  [ at_ 5 8 OU BLACK; at_ 2 7 HI BLACK; at_ 2 6 FU BLACK;
    at_ 5 0 OU WHITE; at_ 1 0 KY WHITE ].

Definition pieces0 : list (Square * Piece) :=
  [ at_ 7 6 FU BLACK; at_ 8 7 KA BLACK;
    at_ 3 2 FU WHITE; at_ 2 1 KA WHITE; at_ 3 0 GI WHITE ] ++ settled.
Definition pieces1 : list (Square * Piece) :=
  [ at_ 7 5 FU BLACK; at_ 8 7 KA BLACK;
    at_ 3 2 FU WHITE; at_ 2 1 KA WHITE; at_ 3 0 GI WHITE ] ++ settled.
Definition pieces2 : list (Square * Piece) :=
  [ at_ 7 5 FU BLACK; at_ 8 7 KA BLACK;
    at_ 3 3 FU WHITE; at_ 2 1 KA WHITE; at_ 3 0 GI WHITE ] ++ settled.
Definition pieces3 : list (Square * Piece) :=
  [ at_ 7 5 FU BLACK; at_ 2 1 UM BLACK;
    at_ 3 3 FU WHITE; at_ 3 0 GI WHITE ] ++ settled.
Definition pieces4 : list (Square * Piece) :=
  [ at_ 7 5 FU BLACK;
    at_ 3 3 FU WHITE; at_ 2 1 GI WHITE ] ++ settled.
Definition pieces5 : list (Square * Piece) :=
  [ at_ 7 5 FU BLACK; at_ 5 4 KA BLACK;
    at_ 3 3 FU WHITE; at_ 2 1 GI WHITE ] ++ settled.
Definition pieces6 : list (Square * Piece) :=
  [ at_ 7 5 FU BLACK; at_ 5 4 KA BLACK;
    at_ 3 3 FU WHITE; at_ 2 1 GI WHITE; at_ 4 3 KA WHITE ] ++ settled.

Definition snapshot (pieces : list (Square * Piece)) (c : Color) : State :=
  {| board := board_of pieces; turn := c |}.

Definition moves : list Move :=
  [ BoardMove (mkSquare 7 6) (mkSquare 7 5) false;
    BoardMove (mkSquare 3 2) (mkSquare 3 3) false;
    BoardMove (mkSquare 8 7) (mkSquare 2 1) true;
    BoardMove (mkSquare 3 0) (mkSquare 2 1) false;
    DropMove KA (mkSquare 5 4);
    DropMove KA (mkSquare 4 3) ].

Definition snapshots : list State :=
  [ snapshot pieces0 BLACK; snapshot pieces1 WHITE; snapshot pieces2 BLACK;
    snapshot pieces3 WHITE; snapshot pieces4 BLACK; snapshot pieces5 WHITE ].

Definition game : Game :=
  {| _move_history := moves;
     _state_history := snapshots;
     state := snapshot pieces6 BLACK;
     result_value := "ONGOING" |}.

Definition log : list string :=
  [ "☗７五歩(76)"; "☖３三歩(32)"; "☗２一角成(87)"; "☖２一銀(30)"; "☗５四角打"; "☖４三角打" ].

Definition lines : list string :=
  kif_header ++
  [ "   1 ７五歩(76)"; "   2 ３三歩(32)"; "   3 ２一角成(87)";
    "   4 同　銀(30)"; "   5 ５四角打"; "   6 ４三角打" ].

Definition kif : string := join (String nl EmptyString) lines.

End Sample.

(** ** Sample collaborators *)
Module SampleServer.

(** The square behind [sq], seen from the side [c]. *)
Definition behind (sq : Square) (c : Color) : Square :=
  mkSquare (file sq) (match c with BLACK => rank sq + 1 | WHITE => rank sq - 1 end).

(** A piece moves like the friendly piece right behind it, if there is
    one; the query fails when the square behind is off the board. *)
Definition effective (b : Board) (sq : Square) (c : Color)
  : result (option PieceType) :=
  match b sq with
  | None => Ok None
  | Some p =>
      if in_domain (behind sq c) then
        match b (behind sq c) with
        | Some q => Ok (Some (if bool_decide (color q = c) then piece_type q
                              else piece_type p))
        | None => Ok (Some (piece_type p))
        end
      else Raise (EngineError "no square behind")
  end.

Definition sfen (m : Move) : string :=
  match m with
  | DropMove pt d => value pt +:+ "*" +:+ str_int (file d) +:+ str_int (rank d)
  | BoardMove s d pr =>
      str_int (file s) +:+ str_int (rank s) +:+ str_int (file d) +:+ str_int (rank d)
        +:+ (if pr then "+" else "")
  end.

Definition fresh : Game :=
  {| _move_history := []; _state_history := [];
     state := Sample.snapshot Sample.pieces0 BLACK; result_value := "ONGOING" |}.

#[local] Instance engine : RulesEngine := {|
  get_effective_piece_type := effective;
  get_legal_moves := fun _ =>
    [BoardMove (mkSquare 7 5) (mkSquare 7 4) false; DropMove KA (mkSquare 5 5)];
  to_sfen := sfen;
  stand := fun _ _ => [];
  in_check := fun _ => false;
  ply := fun g => Z.of_nat (length (_move_history g));
  turn_str := fun g => match turn (state g) with BLACK => "BLACK" | WHITE => "WHITE" end;
  Game_new := fresh;
  apply := fun _ _ => Raise (EngineError "illegal move");
  undo := fun _ => Raise (EngineError "no move to undo");
  resign := fun g =>
    {| _move_history := _move_history g; _state_history := _state_history g;
       state := state g; result_value := "WHITE_WIN" |};
|}.

(** An agent that finds no move. *)
Definition idle_agent : AIPlayer := {| select_move := fun _ _ => None |}.

(** The sample session, played without an agent. *)
Definition server : Server :=
  {| game := Sample.game; ai_color := Some "WHITE"; ai_player := None |}.

(** The same session with the idle agent. *)
Definition server_with_agent : Server :=
  {| game := Sample.game; ai_color := Some "WHITE"; ai_player := Some idle_agent |}.

(** The session after a resignation. *)
Definition resigned (s : Server) : Server :=
  {| game := resign (game s); ai_color := ai_color s; ai_player := ai_player s |}.

End SampleServer.

(** ** A sample library: a decoder that knows three documents *)
Module SampleLib.








End SampleLib.

(** ** A sample engine that records a move without its snapshot *)
Module SampleFaulty.

Definition push (g : Game) (m : Move) : Game :=
  {| _move_history := _move_history g ++ [m];
     _state_history := _state_history g;
     state := state g;
     result_value := result_value g |}.

#[local] Instance engine : RulesEngine := {|
  get_effective_piece_type := SampleServer.effective;
  get_legal_moves := fun _ => [];
  to_sfen := SampleServer.sfen;
  stand := fun _ c => match c with BLACK => [(KA, 1); (FU, 2)] | WHITE => [] end;
  in_check := fun _ => false;
  ply := fun g => Z.of_nat (length (_move_history g));
  turn_str := fun g => match turn (state g) with BLACK => "BLACK" | WHITE => "WHITE" end;
  Game_new := SampleServer.fresh;
  apply := fun g x =>
    match x with
    | ArgMove m => Ok (push g m)
    | ArgJson _ => Ok (push g (DropMove FU (mkSquare 5 5)))
    end;
  undo := fun _ => Raise (EngineError "no move to undo");
  resign := fun g => g;
|}.

End SampleFaulty.

(** * Properties *)

(** ** Strings and lists *)

Lemma count_char_app c (a b : string) :
  count_char c (a +:+ b) = (count_char c a + count_char c b)%nat.
Proof. induction a as [|x a IH]; simpl; [done | rewrite IH; lia]. Qed.

Lemma split_nl_clean (a : string) :
  count_char nl a = O -> split_nl a = [a].
Proof.
  induction a as [|x a IH]; simpl; [done |].
  destruct (Ascii.eqb x nl); [discriminate |].
  intros H. by rewrite IH.
Qed.

Lemma split_nl_app (a b : string) :
  count_char nl a = O ->
  split_nl (a +:+ String nl b) = a :: split_nl b.
Proof.
  induction a as [|x a IH]; simpl; [done |].
  destruct (Ascii.eqb x nl); [discriminate |].
  intros H. by rewrite IH.
Qed.

(** Splitting what [join] glued gives the lines back, as long as no line
    holds a newline. *)
Lemma split_nl_join (l : string) (ls : list string) :
  Forall (fun x => count_char nl x = O) (l :: ls) ->
  split_nl (join (String nl EmptyString) (l :: ls)) = l :: ls.
Proof.
  revert l. induction ls as [|l' ls IH]; intros l Hall.
  - simpl. apply split_nl_clean. by inversion Hall.
  - inversion Hall as [|? ? Hl Hrest]; subst.
    change (join (String nl EmptyString) (l :: l' :: ls))
      with (l +:+ String nl (join (String nl EmptyString) (l' :: ls))).
    rewrite split_nl_app by done. by rewrite IH.
Qed.

Lemma count_char_spaces c n : c <> " "%char -> count_char c (spaces n) = O.
Proof.
  intros Hc. induction n as [|n IH]; cbn [spaces count_char]; [done |].
  destruct (Ascii.eqb_spec " "%char c) as [<-|_]; [done | exact IH].
Qed.

Lemma count_char_rjust c w s :
  c <> " "%char -> count_char c (rjust w s) = count_char c s.
Proof.
  intros Hc. unfold rjust. by rewrite count_char_app, count_char_spaces.
Qed.

Lemma count_char_uint c (d : Decimal.uint) :
  numeral_char c = false -> count_char c (NilEmpty.string_of_uint d) = O.
Proof.
  intros Hc. induction d; cbn [NilEmpty.string_of_uint count_char]; try done;
    match goal with
    | |- context [Ascii.eqb ?x c] =>
        destruct (Ascii.eqb_spec x c) as [<-|_]; [by vm_compute in Hc | exact IHd]
    end.
Qed.

Lemma count_char_str_int c n :
  numeral_char c = false -> count_char c (str_int n) = O.
Proof.
  intros Hc. unfold str_int, NilZero.string_of_int, NilZero.string_of_uint.
  destruct (Z.to_int n) as [d|d]; destruct d;
    cbn [NilEmpty.string_of_uint NilEmpty.string_of_int count_char];
    repeat match goal with
    | |- context [Ascii.eqb ?x c] =>
        destruct (Ascii.eqb_spec x c) as [<-|_]; [by vm_compute in Hc |]
    end; cbn [Nat.add]; try done; by apply count_char_uint.
Qed.

Lemma list_getitem_nonneg {A} (l : list A) (i : Z) :
  0 <= i ->
  list_getitem l i =
    match l !! Z.to_nat i with
    | Some a => Ok a
    | None => Raise IndexError
    end.
Proof.
  intros Hi. unfold list_getitem. cbv zeta.
  assert ((i <? 0) = false) as Hn by (apply Z.ltb_ge; lia).
  rewrite Hn. cbv iota. rewrite Hn.
  destruct (Z.leb_spec (Z.of_nat (length l)) i) as [Hle|Hlt]; simpl; [|done].
  rewrite lookup_ge_None_2 by lia. done.
Qed.

Lemma list_getitem_nat {A} (l : list A) (i : nat) (a : A) :
  list_getitem l (Z.of_nat i) = Ok a <-> l !! i = Some a.
Proof.
  rewrite list_getitem_nonneg by lia. rewrite Nat2Z.id.
  destruct (l !! i); split; intros; simplify_eq; done.
Qed.

Lemma list_getitem_elem {A} (l : list A) (i : Z) (a : A) :
  list_getitem l i = Ok a -> a ∈ l.
Proof.
  unfold list_getitem. intros H.
  repeat case_match; simplify_eq; by eapply list_elem_of_lookup_2.
Qed.

(** ** The notation tables *)

Lemma plain_app (a b : string) : plain a -> plain b -> plain (a +:+ b).
Proof. intros Ha Hb c Hc. by rewrite count_char_app, Ha, Hb. Qed.

Lemma append_cons x (a b : string) : String x a +:+ b = String x (a +:+ b).
Proof. reflexivity. Qed.

Lemma append_assoc (a b c : string) : (a +:+ b) +:+ c = a +:+ b +:+ c.
Proof. induction a as [|x a IH]; [reflexivity | rewrite !append_cons; by f_equal]. Qed.

Ltac plain_closed := intros ? [-> | [-> | ->]]; reflexivity.

Lemma zenkaku_glyph (zf : string) :
  zf ∈ _ZENKAKU_NUMS -> plain zf /\ (zf = EmptyString \/ not_same_start zf).
Proof.
  unfold _ZENKAKU_NUMS. intros H.
  repeat (apply elem_of_cons in H as [->|H]);
    try (split; [plain_closed | first [by left | right; intros rest; reflexivity]]).
  by apply elem_of_nil in H.
Qed.

Lemma kanji_glyph (kr : string) :
  kr ∈ _KANJI_NUMS -> plain kr /\ (kr = EmptyString \/ not_same_start kr).
Proof.
  unfold _KANJI_NUMS. intros H.
  repeat (apply elem_of_cons in H as [->|H]);
    try (split; [plain_closed | first [by left | right; intros rest; reflexivity]]).
  by apply elem_of_nil in H.
Qed.

(** Every piece kind has a glyph in the Piece Notation Table. *)
Lemma piece_kanji_total (pt : PieceType) :
  exists pc, dict_getitem _PIECE_KANJI (value pt) = Ok pc
             /\ plain pc /\ not_same_start pc /\ pc <> EmptyString.
Proof.
  destruct pt; eexists; (split; [vm_compute; reflexivity |]);
    (split; [plain_closed | split; [intros rest; reflexivity | done]]).
Qed.

(** What is prefixed to the piece glyph of a formal rendering that spells
    the destination out never reads as the same-square token. *)
Lemma coords_not_same_start (zf kr pc tail : string) :
  zf ∈ _ZENKAKU_NUMS -> kr ∈ _KANJI_NUMS -> not_same_start pc ->
  String.prefix same_token (zf +:+ kr +:+ pc +:+ tail) = false.
Proof.
  intros [_ [->|Hz]]%zenkaku_glyph [_ [->|Hk]]%kanji_glyph Hp.
  - apply Hp.
  - apply Hk.
  - apply Hz.
  - apply Hz.
Qed.

(** Files 1..9 index a full-width digit. *)
Lemma zenkaku_file (f : Z) :
  1 <= f <= 9 ->
  exists zf, list_getitem _ZENKAKU_NUMS f = Ok zf /\ zf <> EmptyString.
Proof.
  intros Hf.
  assert (f = 1 \/ f = 2 \/ f = 3 \/ f = 4 \/ f = 5 \/ f = 6 \/ f = 7 \/ f = 8 \/ f = 9)
    as Hcases by lia.
  repeat destruct Hcases as [->|Hcases]; try subst f; eexists; split;
    first [reflexivity | done].
Qed.

(** Ranks 0..8 index the kanji table, rank 0 its empty first entry. *)
Lemma kanji_rank (r : Z) :
  0 <= r <= 8 ->
  exists kr, list_getitem _KANJI_NUMS r = Ok kr /\ (kr = EmptyString <-> r = 0).
Proof.
  intros Hr.
  assert (r = 0 \/ r = 1 \/ r = 2 \/ r = 3 \/ r = 4 \/ r = 5 \/ r = 6 \/ r = 7 \/ r = 8)
    as Hcases by lia.
  repeat destruct Hcases as [->|Hcases]; try subst r; eexists;
    (split; [reflexivity | split; intros; done]).
Qed.

(** ** One move of the notation synthesizer *)

Ltac inv_result H :=
  unfold mbind, result_bind, mret, result_ret in H;
  repeat case_match; simplify_eq.

Lemma move_strs_drop prev st pt d k l :
  move_strs prev st (DropMove pt d) = Ok (k, l) ->
  exists zf kr pc,
    list_getitem _ZENKAKU_NUMS (file d) = Ok zf /\
    list_getitem _KANJI_NUMS (rank d) = Ok kr /\
    dict_getitem _PIECE_KANJI (value pt) = Ok pc /\
    k = zf +:+ kr +:+ pc +:+ "打" /\
    l = turn_mark st +:+ k.
Proof.
  unfold move_strs. intros H. inv_result H. eauto 10.
Qed.

Lemma move_strs_board prev st src d pr k l :
  move_strs prev st (BoardMove src d pr) = Ok (k, l) ->
  exists zf kr pc piece,
    board st src = Some piece /\
    dict_getitem _PIECE_KANJI (value (piece_type piece)) = Ok pc /\
    list_getitem _ZENKAKU_NUMS (file d) = Ok zf /\
    list_getitem _KANJI_NUMS (rank d) = Ok kr /\
    k = (if same_as_prev prev d then same_token else zf +:+ kr)
          +:+ pc +:+ promote_mark pr +:+ src_suffix src /\
    l = turn_mark st +:+ zf +:+ kr +:+ pc +:+ promote_mark pr +:+ src_suffix src.
Proof.
  unfold move_strs. intros H.
  destruct (board st src) as [piece|] eqn:Hb; [|discriminate].
  destruct (same_as_prev prev d) eqn:Hs; inv_result H;
    do 3 eexists; exists piece; repeat split; by eauto.
Qed.

Lemma piece_kanji_inv k pc :
  dict_getitem _PIECE_KANJI k = Ok pc ->
  plain pc /\ not_same_start pc /\ pc <> EmptyString.
Proof.
  unfold dict_getitem, _PIECE_KANJI. intros H.
  destruct (list_to_map _ !! k) as [g|] eqn:Hk; simplify_eq.
  apply elem_of_list_to_map_2 in Hk.
  repeat (apply elem_of_cons in Hk as [Hk|Hk]; [simplify_eq;
    (split; [plain_closed | split; [intros rest; reflexivity | done]]) |]).
  by apply elem_of_nil in Hk.
Qed.

Lemma plain_promote_mark pr : plain (promote_mark pr).
Proof. destruct pr; plain_closed. Qed.

Lemma count_char_src_suffix c src :
  numeral_char c = false ->
  count_char c (src_suffix src) =
    ((if Ascii.eqb "(" c then 1 else 0) + (if Ascii.eqb ")" c then 1 else 0))%nat.
Proof.
  intros Hc. unfold src_suffix.
  rewrite !count_char_app, !count_char_str_int by done.
  cbn [count_char]. lia.
Qed.

(** No rendering holds a line break. *)
Lemma move_strs_no_nl prev st m k l :
  move_strs prev st m = Ok (k, l) -> count_char nl k = O.
Proof.
  assert (Hnl : markup_char nl) by (by left).
  destruct m as [pt d|src d pr]; intros H.
  - apply move_strs_drop in H as (zf & kr & pc & Hz & Hk & Hp & -> & _).
    apply list_getitem_elem, zenkaku_glyph in Hz as [Hz _].
    apply list_getitem_elem, kanji_glyph in Hk as [Hk _].
    apply piece_kanji_inv in Hp as [Hp _].
    rewrite !count_char_app, Hz, Hk, Hp by done. reflexivity.
  - apply move_strs_board in H as (zf & kr & pc & piece & _ & Hp & Hz & Hk & -> & _).
    apply list_getitem_elem, zenkaku_glyph in Hz as [Hz _].
    apply list_getitem_elem, kanji_glyph in Hk as [Hk _].
    apply piece_kanji_inv in Hp as [Hp _].
    rewrite !count_char_app, Hp, plain_promote_mark, count_char_src_suffix by done.
    destruct (same_as_prev prev d); [reflexivity |].
    rewrite count_char_app, Hz, Hk by done. reflexivity.
Qed.

(** ** The loop over the history *)

Lemma kif_loop_inv g ms : forall i prev la kl log kif,
  kif_loop g i ms prev la kl = Ok (log, kif) ->
  exists ls ks,
    log = la ++ ls /\ kif = kl ++ ks /\
    length ls = length ms /\ length ks = length ms /\
    forall j m, ms !! j = Some m ->
      exists st k l,
        _state_history g !! (i + j)%nat = Some st /\
        move_strs (match j with O => prev | S j' => dst <$> ms !! j' end) st m = Ok (k, l) /\
        ls !! j = Some l /\ ks !! j = Some (kif_line (i + j) k).
Proof.
  induction ms as [|m ms IH]; intros i prev la kl log kif H.
  - simpl in H. simplify_eq. exists [], []. rewrite !app_nil_r.
    repeat split; try done; intros j m Hj; by rewrite lookup_nil in Hj.
  - cbn [kif_loop] in H. unfold mbind, result_bind in H.
    destruct (list_getitem (_state_history g) (Z.of_nat i)) as [st|] eqn:Hst; [|discriminate].
    destruct (move_strs prev st m) as [[k l]|] eqn:Hm; [|discriminate].
    apply IH in H as (ls & ks & -> & -> & Hls & Hks & Hall).
    exists (l :: ls), (kif_line i k :: ks).
    rewrite <- !app_assoc. simpl. repeat split; try done; try (by f_equal).
    intros [|j] m' Hj; simpl in Hj.
    + simplify_eq. exists st, k, l. rewrite Nat.add_0_r.
      apply list_getitem_nat in Hst. done.
    + destruct (Hall j m' Hj) as (st' & k' & l' & Hst' & Hm' & Hl' & Hk').
      exists st', k', l'. replace (i + S j)%nat with (S i + j)%nat by lia.
      repeat split; try done.
      destruct j as [|j']; [done | exact Hm'].
Qed.

(** What a successful run of [_generate_kif_and_log] returns. *)
Lemma generate_inv g log kif :
  _generate_kif_and_log g = Ok (log, kif) ->
  exists ks,
    kif = join (String nl EmptyString) (kif_header ++ ks) /\
    split_nl kif = kif_header ++ ks /\
    length log = length (_move_history g) /\
    length ks = length (_move_history g) /\
    forall i m, _move_history g !! i = Some m ->
      exists st k l,
        _state_history g !! i = Some st /\
        move_strs (prev_dst_at (_move_history g) i) st m = Ok (k, l) /\
        log !! i = Some l /\ ks !! i = Some (kif_line i k).
Proof.
  unfold _generate_kif_and_log. intros H.
  unfold mbind, result_bind, mret, result_ret in H.
  destruct (kif_loop _ _ _ _ _ _) as [[la kl]|] eqn:Hloop; simplify_eq.
  apply kif_loop_inv in Hloop as (ls & ks & -> & -> & Hls & Hks & Hall).
  exists ks. rewrite app_nil_l. split_and!; try done.
  unfold kif_header. cbn [app]. apply split_nl_join.
  repeat (constructor; [reflexivity |]).
  apply Forall_lookup. intros i x Hx.
  destruct (lookup_lt_is_Some_2 (_move_history g) i) as [m Hm];
    [apply lookup_lt_Some in Hx; lia |].
  destruct (Hall i m Hm) as (st & k & l & _ & Hk & _ & Hx').
  simplify_eq. unfold kif_line.
  rewrite !count_char_app, count_char_rjust, count_char_str_int by done.
  rewrite (move_strs_no_nl _ _ _ _ _ Hk). reflexivity.
Qed.

(** ** Well-formed histories *)

Lemma in_domain_spec sq :
  in_domain sq = true <-> 1 <= file sq <= 9 /\ 0 <= rank sq <= 8.
Proof. unfold in_domain. rewrite !andb_true_iff, !Z.leb_le. lia. Qed.

Lemma move_strs_total prev st m :
  wf_move st m = true -> exists k l, move_strs prev st m = Ok (k, l).
Proof.
  unfold wf_move. rewrite andb_true_iff, in_domain_spec. intros [[Hf Hr] Hsrc].
  destruct (zenkaku_file _ Hf) as (zf & Hzf & _).
  destruct (kanji_rank _ Hr) as (kr & Hkr & _).
  destruct m as [pt d|src d pr]; simpl in *.
  - destruct (piece_kanji_total pt) as (pc & Hpc & _).
    unfold mbind, result_bind. rewrite Hpc, Hzf, Hkr. simpl. eauto.
  - destruct (board st src) as [piece|]; [|discriminate].
    destruct (piece_kanji_total (piece_type piece)) as (pc & Hpc & _).
    unfold mbind, result_bind. rewrite Hpc, Hzf, Hkr.
    destruct (same_as_prev prev d); simpl; eauto.
Qed.

Lemma kif_loop_total g ms : forall i prev la kl,
  (forall j m, ms !! j = Some m ->
     exists st, _state_history g !! (i + j)%nat = Some st /\ wf_move st m = true) ->
  exists log kif, kif_loop g i ms prev la kl = Ok (log, kif).
Proof.
  induction ms as [|m ms IH]; intros i prev la kl Hwf; [simpl; eauto |].
  cbn [kif_loop]. unfold mbind, result_bind.
  destruct (Hwf O m eq_refl) as (st & Hst & Hm).
  rewrite Nat.add_0_r in Hst. apply list_getitem_nat in Hst. rewrite Hst.
  destruct (move_strs_total prev st m Hm) as (k & l & ->).
  apply IH. intros j m' Hj.
  replace (S i + j)%nat with (i + S j)%nat by lia. by apply Hwf.
Qed.

(** On a well-formed history the synthesizer returns. *)
Lemma generate_total g :
  wf_history g -> exists log kif, _generate_kif_and_log g = Ok (log, kif).
Proof.
  intros Hwf. unfold _generate_kif_and_log.
  destruct (kif_loop_total g (_move_history g) O None [] kif_header) as (log & kl & ->).
  - intros j m Hm. eapply Forall2_lookup_r in Hwf as (st & Hst & Hw); eauto.
  - simpl. eauto.
Qed.

(** ** The transcript, line by line *)

Lemma same_as_prev_spec ms i m :
  same_as_prev (prev_dst_at ms i) (dst m) = true <-> repeats_destination ms i m.
Proof.
  unfold same_as_prev, repeats_destination, prev_dst_at. split.
  - destruct i as [|j]; [done |].
    destruct (ms !! j) as [p|] eqn:Hp; simpl; [|done].
    intros H%bool_decide_eq_true. eauto.
  - intros (j & p & -> & Hp & Hd). rewrite Hp. simpl. by apply bool_decide_eq_true.
Qed.

(** Every recorded move has its snapshot, its log entry and its transcript
    line, all three computed by [move_strs] from that snapshot. *)
Lemma rendering_inv g log kif i m :
  _generate_kif_and_log g = Ok (log, kif) ->
  _move_history g !! i = Some m ->
  exists st k l,
    _state_history g !! i = Some st /\
    move_strs (prev_dst_at (_move_history g) i) st m = Ok (k, l) /\
    log !! i = Some l /\ formal_rendering kif i k.
Proof.
  intros (ks & _ & Hsplit & _ & _ & Hall)%generate_inv Hm.
  destruct (Hall i m Hm) as (st & k & l & Hst & Hk & Hl & Hks).
  exists st, k, l. split_and!; try done.
  unfold formal_rendering. rewrite Hsplit.
  rewrite lookup_app_r by (simpl; lia).
  replace (5 + i - length kif_header)%nat with i by (simpl; lia). done.
Qed.

Lemma prefix_app (a b : string) : String.prefix a (a +:+ b) = true.
Proof.
  induction a as [|x a IH]; [by destruct b |].
  rewrite append_cons. cbn [String.prefix].
  by destruct (ascii_dec x x).
Qed.

Lemma prefix_same_token tail : String.prefix same_token (same_token +:+ tail) = true.
Proof. apply prefix_app. Qed.

(** The sample session, run. *)
Lemma sample_generate : _generate_kif_and_log Sample.game = Ok (Sample.log, Sample.kif).
Proof. vm_compute. reflexivity. Qed.

Lemma sample_wf : wf_history Sample.game.
Proof. repeat constructor. Qed.

(** ** Same-square compression *)

(** C1. In the transcript of every history the rendering of move [i] has
    the same-square token in place of the destination coordinates exactly
    when the move is not a drop and lands on the square on which move
    [i-1] landed, whichever side made that move and whether or not it was
    a drop: the rendering is then the token, the piece glyph, the
    promotion marker and the source suffix, and nothing else.  In every
    other case the destination is spelled out: a board move is the
    full-width file, the kanji rank, the piece glyph, the promotion marker
    and the source suffix, and a drop is the file, the rank, the glyph of
    the dropped kind and the drop marker.  A rendering starts with the
    token in the first case only.  On a well-formed history the
    synthesizer returns. *)
Theorem same_square_compression (g : Game) :
  (wf_history g -> returns (_generate_kif_and_log g)) /\
  forall log kif i m,
    _generate_kif_and_log g = Ok (log, kif) ->
    _move_history g !! i = Some m ->
    exists r zf kr glyph,
      formal_rendering kif i r /\
      list_getitem _ZENKAKU_NUMS (file (dst m)) = Ok zf /\
      list_getitem _KANJI_NUMS (rank (dst m)) = Ok kr /\
      (String.prefix same_token r = true <->
         is_drop m = false /\ repeats_destination (_move_history g) i m) /\
      match m with
      | DropMove pt _ =>
          _PIECE_KANJI !! value pt = Some glyph /\
          r = zf +:+ kr +:+ glyph +:+ "打"
      | BoardMove src _ pr =>
          (exists st piece,
             _state_history g !! i = Some st /\
             board st src = Some piece /\
             _PIECE_KANJI !! value (piece_type piece) = Some glyph) /\
          (repeats_destination (_move_history g) i m ->
             r = same_token +:+ glyph +:+ promote_mark pr +:+ src_suffix src) /\
          (~ repeats_destination (_move_history g) i m ->
             r = zf +:+ kr +:+ glyph +:+ promote_mark pr +:+ src_suffix src)
      end.
Proof.
  split.
  { intros (log & kif & ->)%generate_total. by exists (log, kif). }
  intros log kif i m Hgen Hm.
  destruct (rendering_inv _ _ _ _ _ Hgen Hm) as (st & k & l & Hst & Hk & _ & Hr).
  pose proof (same_as_prev_spec (_move_history g) i m) as Hsame.
  destruct m as [pt d|src d pr].
  - apply move_strs_drop in Hk as (zf & kr & pc & Hz & Hkr & Hpc & -> & _).
    pose proof (list_getitem_elem _ _ _ Hz) as Hzin.
    pose proof (list_getitem_elem _ _ _ Hkr) as Hkin.
    pose proof (piece_kanji_inv _ _ Hpc) as (_ & Hns & _).
    exists (zf +:+ kr +:+ pc +:+ "打"), zf, kr, pc.
    rewrite (coords_not_same_start zf kr pc _ Hzin Hkin Hns).
    split_and!; try done.
    + split; [done | by intros [? _]].
    + unfold dict_getitem in Hpc. by destruct (_PIECE_KANJI !! _); simplify_eq.
  - apply move_strs_board in Hk as (zf & kr & pc & piece & Hb & Hpc & Hz & Hkr & -> & _).
    pose proof (list_getitem_elem _ _ _ Hz) as Hzin.
    pose proof (list_getitem_elem _ _ _ Hkr) as Hkin.
    pose proof (piece_kanji_inv _ _ Hpc) as (_ & Hns & _).
    assert (Hglyph : _PIECE_KANJI !! value (piece_type piece) = Some pc).
    { unfold dict_getitem in Hpc. by destruct (_PIECE_KANJI !! _); simplify_eq. }
    eexists; exists zf, kr, pc.
    split; [exact Hr |]. simpl in Hsame. simpl dst.
    destruct (same_as_prev (prev_dst_at (_move_history g) i) d).
    + rewrite prefix_same_token. split_and!; try done.
      * split; [intros _; split; [done | by apply Hsame] | done].
      * by exists st, piece.
      * intros Hno. exfalso. apply Hno. by apply Hsame.
    + rewrite append_assoc.
      rewrite (coords_not_same_start zf kr pc _ Hzin Hkin Hns).
      split_and!; try done.
      * split; [done |]. intros [_ H%Hsame]. done.
      * by exists st, piece.
      * intros H%Hsame. done.
Qed.

Lemma same_square_compression_witness :
  returns (_generate_kif_and_log Sample.game) /\
  exists r zf kr glyph,
    formal_rendering Sample.kif 3 r /\
    list_getitem _ZENKAKU_NUMS 2 = Ok zf /\
    list_getitem _KANJI_NUMS 1 = Ok kr /\
    (String.prefix same_token r = true <->
       false = false /\
       repeats_destination Sample.moves 3 (BoardMove (mkSquare 3 0) (mkSquare 2 1) false)) /\
    (exists st piece,
       Sample.snapshots !! 3%nat = Some st /\
       board st (mkSquare 3 0) = Some piece /\
       _PIECE_KANJI !! value (piece_type piece) = Some glyph) /\
    (repeats_destination Sample.moves 3 (BoardMove (mkSquare 3 0) (mkSquare 2 1) false) ->
       r = same_token +:+ glyph +:+ promote_mark false +:+ src_suffix (mkSquare 3 0)) /\
    (~ repeats_destination Sample.moves 3 (BoardMove (mkSquare 3 0) (mkSquare 2 1) false) ->
       r = zf +:+ kr +:+ glyph +:+ promote_mark false +:+ src_suffix (mkSquare 3 0)).
Proof.
  destruct (same_square_compression Sample.game) as [Hret Hline].
  split; [exact (Hret sample_wf) |].
  exact (Hline Sample.log Sample.kif 3%nat _ sample_generate eq_refl).
Defined.

(** The sample's recapture, spelled out: the fourth line is the token, the
    silver's glyph and the source suffix, and the line before it, the
    capture on the same square, spells the square out. *)
Lemma same_square_sample :
  formal_rendering Sample.kif 3 (same_token +:+ "銀" +:+ src_suffix (mkSquare 3 0)) /\
  formal_rendering Sample.kif 2 ("２一" +:+ "角" +:+ "成" +:+ src_suffix (mkSquare 8 7)).
Proof. split; reflexivity. Qed.

(** ** Size of the transcript *)

(** C2. On every well-formed history the synthesizer returns; and whenever
    it returns, the transcript has five header lines followed by one line
    per move, [len(moveHistory) + 5] in all, and the log has one entry per
    move.  For the empty history the transcript is the header and the log
    is empty. *)
Theorem transcript_size (g : Game) :
  (wf_history g -> returns (_generate_kif_and_log g)) /\
  forall log kif,
    _generate_kif_and_log g = Ok (log, kif) ->
    length (split_nl kif) = (length (_move_history g) + 5)%nat /\
    take 5 (split_nl kif) = kif_header /\
    length log = length (_move_history g) /\
    (_move_history g = [] -> split_nl kif = kif_header /\ log = []).
Proof.
  split.
  { intros (log & kif & ->)%generate_total. by exists (log, kif). }
  intros log kif (ks & _ & -> & Hlog & Hks & _)%generate_inv.
  split_and!.
  - rewrite length_app, Hks. simpl. lia.
  - by rewrite take_app_length' by done.
  - done.
  - intros Hnil. rewrite Hnil in Hlog, Hks.
    destruct ks; [|done]. destruct log; [|done]. by rewrite app_nil_r.
Qed.

Lemma transcript_size_witness :
  returns (_generate_kif_and_log Sample.game) /\
  length (split_nl Sample.kif) = (6 + 5)%nat /\
  take 5 (split_nl Sample.kif) = kif_header /\
  length Sample.log = 6%nat /\
  (Sample.moves = [] -> split_nl Sample.kif = kif_header /\ Sample.log = []).
Proof.
  destruct (transcript_size Sample.game) as [Hret Hsize].
  split; [exact (Hret sample_wf) |].
  exact (Hsize Sample.log Sample.kif sample_generate).
Defined.

(** The empty history, run. *)
Lemma transcript_empty st res :
  _generate_kif_and_log (mkGame [] [] st res)
  = Ok ([], join (String nl EmptyString) kif_header).
Proof. reflexivity. Qed.

(** ** Notation is read off the pre-move snapshot *)

(** C3. The log entry of move [i] starts with the glyph of the side to move
    in snapshot [i], the Black glyph for Black and the White glyph for
    White; and for a board move the piece glyph of both the log entry and
    the transcript line is the table glyph of the piece that stands on the
    source square in snapshot [i].  On a well-formed history the
    synthesizer returns. *)
Theorem notation_from_snapshot (g : Game) :
  (wf_history g -> returns (_generate_kif_and_log g)) /\
  forall log kif i m,
    _generate_kif_and_log g = Ok (log, kif) ->
    _move_history g !! i = Some m ->
    exists st entry,
      _state_history g !! i = Some st /\
      log !! i = Some entry /\
      String.prefix (match turn st with BLACK => "☗" | WHITE => "☖" end) entry = true /\
      forall src d pr, m = BoardMove src d pr ->
        exists piece glyph dst_str zf kr r,
          board st src = Some piece /\
          _PIECE_KANJI !! value (piece_type piece) = Some glyph /\
          formal_rendering kif i r /\
          r = dst_str +:+ glyph +:+ promote_mark pr +:+ src_suffix src /\
          list_getitem _ZENKAKU_NUMS (file d) = Ok zf /\
          list_getitem _KANJI_NUMS (rank d) = Ok kr /\
          entry = (match turn st with BLACK => "☗" | WHITE => "☖" end)
                    +:+ zf +:+ kr +:+ glyph +:+ promote_mark pr +:+ src_suffix src.
Proof.
  split.
  { intros (log & kif & ->)%generate_total. by exists (log, kif). }
  intros log kif i m Hgen Hm.
  destruct (rendering_inv _ _ _ _ _ Hgen Hm) as (st & k & l & Hst & Hk & Hl & Hr).
  exists st, l. split_and!; try done.
  - destruct m as [pt d|src d pr].
    + apply move_strs_drop in Hk as (zf & kr & pc & _ & _ & _ & _ & ->).
      unfold turn_mark. destruct (turn st); apply prefix_app.
    + apply move_strs_board in Hk as (zf & kr & pc & piece & _ & _ & _ & _ & _ & ->).
      unfold turn_mark. destruct (turn st); apply prefix_app.
  - intros src d pr ->.
    apply move_strs_board in Hk as (zf & kr & pc & piece & Hb & Hpc & Hz & Hkr & -> & ->).
    exists piece, pc. eexists; exists zf, kr; eexists.
    split_and!; try done.
    unfold dict_getitem in Hpc. by destruct (_PIECE_KANJI !! _); simplify_eq.
Qed.

Lemma notation_from_snapshot_witness :
  returns (_generate_kif_and_log Sample.game) /\
  exists st entry,
    Sample.snapshots !! 3%nat = Some st /\
    Sample.log !! 3%nat = Some entry /\
    String.prefix (match turn st with BLACK => "☗" | WHITE => "☖" end) entry = true /\
    forall src d pr, BoardMove (mkSquare 3 0) (mkSquare 2 1) false = BoardMove src d pr ->
      exists piece glyph dst_str zf kr r,
        board st src = Some piece /\
        _PIECE_KANJI !! value (piece_type piece) = Some glyph /\
        formal_rendering Sample.kif 3 r /\
        r = dst_str +:+ glyph +:+ promote_mark pr +:+ src_suffix src /\
        list_getitem _ZENKAKU_NUMS (file d) = Ok zf /\
        list_getitem _KANJI_NUMS (rank d) = Ok kr /\
        entry = (match turn st with BLACK => "☗" | WHITE => "☖" end)
                  +:+ zf +:+ kr +:+ glyph +:+ promote_mark pr +:+ src_suffix src.
Proof.
  destruct (notation_from_snapshot Sample.game) as [Hret Hline].
  split; [exact (Hret sample_wf) |].
  exact (Hline Sample.log Sample.kif 3%nat _ sample_generate eq_refl).
Defined.

(** ** Drop marker and source suffix *)

(** C5. The transcript line of a drop ends with the drop marker and holds
    no parenthesis; the transcript line of a board move ends with the
    source square's file and rank, as plain decimal numerals between one
    pair of parentheses, the only parentheses of the line.  On a
    well-formed history the synthesizer returns. *)
Theorem drop_marker_and_source_suffix (g : Game) :
  (wf_history g -> returns (_generate_kif_and_log g)) /\
  forall log kif i m,
    _generate_kif_and_log g = Ok (log, kif) ->
    _move_history g !! i = Some m ->
    exists r body,
      formal_rendering kif i r /\
      count_char "(" body = O /\ count_char ")" body = O /\
      match m with
      | DropMove _ _ =>
          r = body +:+ "打" /\
          count_char "(" r = O /\ count_char ")" r = O
      | BoardMove src _ _ =>
          r = body +:+ "(" +:+ str_int (file src) +:+ str_int (rank src) +:+ ")" /\
          count_char "(" r = 1%nat /\ count_char ")" r = 1%nat
      end.
Proof.
  split.
  { intros (log & kif & ->)%generate_total. by exists (log, kif). }
  intros log kif i m Hgen Hm.
  assert (Hopen : markup_char "(") by (right; by left).
  assert (Hclose : markup_char ")") by (right; by right).
  destruct (rendering_inv _ _ _ _ _ Hgen Hm) as (st & k & l & _ & Hk & _ & Hr).
  destruct m as [pt d|src d pr].
  - apply move_strs_drop in Hk as (zf & kr & pc & Hz & Hkr & Hpc & -> & _).
    apply list_getitem_elem, zenkaku_glyph in Hz as [Hz _].
    apply list_getitem_elem, kanji_glyph in Hkr as [Hkr _].
    apply piece_kanji_inv in Hpc as [Hpc _].
    exists (zf +:+ kr +:+ pc +:+ "打"), (zf +:+ kr +:+ pc).
    rewrite !append_assoc, !count_char_app, !Hz, !Hkr, !Hpc by done.
    split_and!; done.
  - apply move_strs_board in Hk as (zf & kr & pc & piece & _ & Hpc & Hz & Hkr & -> & _).
    apply list_getitem_elem, zenkaku_glyph in Hz as [Hz _].
    apply list_getitem_elem, kanji_glyph in Hkr as [Hkr _].
    apply piece_kanji_inv in Hpc as [Hpc _].
    set (dst_str := if same_as_prev _ _ then _ else _) in *.
    assert (Hdst : plain dst_str).
    { subst dst_str. destruct (same_as_prev _ _); [plain_closed | by apply plain_app]. }
    exists (dst_str +:+ pc +:+ promote_mark pr +:+ src_suffix src),
           (dst_str +:+ pc +:+ promote_mark pr).
    fold (src_suffix src).
    rewrite !append_assoc, !count_char_app, !count_char_src_suffix by done.
    rewrite !Hdst, !Hpc, !plain_promote_mark by done.
    split_and!; done.
Qed.

Lemma drop_marker_and_source_suffix_witness :
  returns (_generate_kif_and_log Sample.game) /\
  (exists r body,
     formal_rendering Sample.kif 4 r /\
     count_char "(" body = O /\ count_char ")" body = O /\
     r = body +:+ "打" /\
     count_char "(" r = O /\ count_char ")" r = O) /\
  (exists r body,
     formal_rendering Sample.kif 2 r /\
     count_char "(" body = O /\ count_char ")" body = O /\
     r = body +:+ "(" +:+ str_int 8 +:+ str_int 7 +:+ ")" /\
     count_char "(" r = 1%nat /\ count_char ")" r = 1%nat).
Proof.
  destruct (drop_marker_and_source_suffix Sample.game) as [Hret Hline].
  split; [exact (Hret sample_wf) |]. split.
  - exact (Hline Sample.log Sample.kif 4%nat _ sample_generate eq_refl).
  - exact (Hline Sample.log Sample.kif 2%nat _ sample_generate eq_refl).
Defined.

(** ** Destination glyphs *)

(** On the board's squares the file always has its full-width digit, and
    the rank has a kanji numeral except on rank 0, where the table's empty
    first entry is read. *)
Lemma destination_glyphs (sq : Square) :
  in_domain sq = true ->
  exists zf kr,
    list_getitem _ZENKAKU_NUMS (file sq) = Ok zf /\
    list_getitem _KANJI_NUMS (rank sq) = Ok kr /\
    zf <> EmptyString /\ (kr = EmptyString <-> rank sq = 0).
Proof.
  intros [Hf Hr]%in_domain_spec.
  destruct (zenkaku_file _ Hf) as (zf & Hzf & Hne).
  destruct (kanji_rank _ Hr) as (kr & Hkr & Hiff).
  by exists zf, kr.
Qed.

(** C6, at a square of the top rank.  A pawn dropped on file 5, rank 0, a
    square of the board, is rendered with the file digit alone: the rank
    glyph read from [_KANJI_NUMS] is the empty string. *)
Theorem rank0_destination_has_no_rank_glyph :
  in_domain (mkSquare 5 0) = true /\
  list_getitem _KANJI_NUMS (rank (mkSquare 5 0)) = Ok EmptyString /\
  move_strs None (mkState (fun _ => None) BLACK) (DropMove FU (mkSquare 5 0))
  = Ok ("５歩打", "☗５歩打") /\
  _generate_kif_and_log
    (mkGame [DropMove FU (mkSquare 5 0)] [mkState (fun _ => None) BLACK]
            (mkState (fun _ => None) WHITE) "ONGOING")
  = Ok (["☗５歩打"], join (String nl EmptyString) (kif_header ++ ["   1 ５歩打"])).
Proof. split_and!; reflexivity. Qed.

(** The same shift by one shows on the other ranks: the squares of the
    bottom rank, rank 8 of 0..8, are rendered with the glyph for eight. *)
Lemma rank8_destination_reads_eight :
  list_getitem _KANJI_NUMS (rank (mkSquare 5 8)) = Ok "八".
Proof. reflexivity. Qed.

(** ** The state projector *)

Section ProjectorFacts.
Context {E : RulesEngine}.

Lemma file_loop_inv st rank fs : forall row annan_row,
  exists row',
    file_loop st rank fs row annan_row
    = Ok (row ++ row', annan_row ++ ((fun f => annotation st (mkSquare f rank)) <$> fs))
    /\ length row' = length fs.
Proof.
  induction fs as [|f fs IH]; intros row annan_row.
  - exists []. by rewrite !app_nil_r.
  - cbn [file_loop fmap list_fmap]. unfold annotation at 1.
    destruct (board st (mkSquare f rank)) as [piece|] eqn:Hb.
    + destruct (piece_kanji_total (piece_type piece)) as (pc & -> & _).
      unfold mbind, result_bind.
      edestruct IH as (row' & -> & Hlen).
      eexists (_ :: row'). rewrite <- !app_assoc. simpl. split; [done | by f_equal].
    + edestruct IH as (row' & -> & Hlen).
      eexists (_ :: row'). rewrite <- !app_assoc. simpl. split; [done | by f_equal].
Qed.

Lemma rank_loop_inv st rs : forall board_data annan_info,
  exists rows,
    rank_loop st rs board_data annan_info
    = Ok (board_data ++ rows,
          annan_info ++
            ((fun r => (fun f => annotation st (mkSquare f r)) <$> files) <$> rs))
    /\ length rows = length rs.
Proof.
  induction rs as [|r rs IH]; intros board_data annan_info.
  - exists []. by rewrite !app_nil_r.
  - cbn [rank_loop fmap list_fmap]. unfold mbind, result_bind.
    destruct (file_loop_inv st r files [] []) as (row & -> & _).
    edestruct IH as (rows & -> & Hlen).
    eexists (_ :: rows). rewrite <- !app_assoc. simpl. split; [done | by f_equal].
Qed.

Lemma ranks_lookup (r : nat) : (r < 9)%nat -> ranks !! r = Some (Z.of_nat r).
Proof. intros Hr. do 9 (destruct r as [|r]; [reflexivity |]). lia. Qed.

Lemma files_lookup (c : nat) : (c < 9)%nat -> files !! c = Some (9 - Z.of_nat c).
Proof. intros Hc. do 9 (destruct c as [|c]; [reflexivity |]). lia. Qed.

(** The annotation of an occupied square is present exactly when the
    piece is not the royal one and the engine answers with a kind other
    than the piece's own; it then carries that kind and its glyph. *)
Lemma annan_cell_spec st sq piece :
  (is_Some (annan_cell st sq piece) <->
     piece_type piece <> OU /\
     exists eff,
       get_effective_piece_type (board st) sq (color piece) = Ok (Some eff) /\
       eff <> piece_type piece) /\
  (forall eff,
     piece_type piece <> OU ->
     get_effective_piece_type (board st) sq (color piece) = Ok (Some eff) ->
     eff <> piece_type piece ->
     exists glyph,
       _PIECE_KANJI !! value eff = Some glyph /\
       annan_cell st sq piece
       = Some {| effective_type := value eff; effective_kanji := glyph |}).
Proof.
  unfold annan_cell, try_except, mbind, result_bind, mret, result_ret.
  destruct (decide (piece_type piece = OU)) as [Hou|Hou].
  { rewrite bool_decide_eq_false_2 by (intros H; by apply H).
    split; [| by intros; simplify_eq]. split; [by intros [? ?] | by intros [? _]]. }
  rewrite bool_decide_eq_true_2 by done.
  destruct (get_effective_piece_type _ _ _) as [[eff|]|e].
  - destruct (decide (eff = piece_type piece)) as [->|Hne].
    + rewrite bool_decide_eq_false_2 by (intros H; by apply H).
      split; [| by intros; simplify_eq]. split; [by intros [? ?] |].
      intros (_ & eff & ? & ?). by simplify_eq.
    + rewrite bool_decide_eq_true_2 by congruence.
      destruct (piece_kanji_total eff) as (glyph & Hg & _).
      rewrite Hg. split.
      * split; [intros _; split; [done | by exists eff] | by eexists].
      * intros eff' _ ? ?. simplify_eq. exists glyph. split; [| by intros; simplify_eq].
        unfold dict_getitem in Hg. by destruct (_PIECE_KANJI !! _); simplify_eq.
  - rewrite bool_decide_eq_true_2 by done.
    split; [| by intros; simplify_eq]. split; [by intros [? ?] |].
    intros (_ & eff & ? & _). done.
  - split; [| by intros; simplify_eq]. split; [by intros [? ?] |].
    intros (_ & eff & ? & _). done.
Qed.

Lemma annan_cell_raise st sq piece e :
  get_effective_piece_type (board st) sq (color piece) = Raise e ->
  annan_cell st sq piece = None.
Proof.
  intros He. unfold annan_cell, try_except, mbind, result_bind.
  rewrite He. by destruct (bool_decide _).
Qed.

Lemma foldl_snoc_map {A B} (f : A -> B) (l : list A) (acc : list B) :
  foldl (fun acc x => acc ++ [f x]) acc l = acc ++ (f <$> l).
Proof.
  revert acc. induction l as [|x l IH]; intros acc; simpl.
  - by rewrite app_nil_r.
  - rewrite IH, <- app_assoc. done.
Qed.

(** The projection returns whenever the notation synthesizer does. *)
Lemma game_state_to_json_inv (s : Server) :
  exists board_data,
    length board_data = 9%nat /\
    _game_state_to_json s =
      '(log_arr, kif_str) ← _generate_kif_and_log (game s);
      mret {| js_board := board_data;
              js_annan_info :=
                (fun r => (fun f => annotation (state (game s)) (mkSquare f r)) <$> files)
                  <$> ranks;
              js_turn := turn_str (game s);
              js_black_hand := hand_dict (stand (game s) BLACK);
              js_white_hand := hand_dict (stand (game s) WHITE);
              js_legal_moves :=
                if bool_decide (result_value (game s) = "ONGOING")
                then to_sfen <$> get_legal_moves (game s)
                else [];
              js_in_check := in_check (game s);
              js_result := result_value (game s);
              js_ply := ply (game s);
              js_ai_enabled := bool_decide (ai_player s <> None);
              js_ai_color := ai_color s;
              js_log := log_arr;
              js_kif := kif_str |}.
Proof.
  unfold _game_state_to_json.
  destruct (rank_loop_inv (state (game s)) ranks [] []) as (rows & -> & Hlen).
  exists rows. split; [done |].
  unfold mbind at 1. unfold result_bind. cbn [app].
  by rewrite foldl_snoc_map.
Qed.

End ProjectorFacts.

(** ** The effective-type annotation grid *)

(** C4. The projector always builds the two 9 x 9 grids, whatever the
    engine answers, and the whole projection returns whenever the notation
    synthesizer does.  The cell in row [r], column [c] of the annotation
    grid belongs to the square of file [9 - c], rank [r]; it is non-empty
    exactly when that square holds a non-royal piece for which the
    effective-type query returns a kind other than the piece's own, and it
    is empty whenever the query raises. *)
Theorem annotation_grid `{E : RulesEngine} (s : Server) :
  exists board_data annan_info,
    rank_loop (state (game s)) ranks [] [] = Ok (board_data, annan_info) /\
    length board_data = 9%nat /\ length annan_info = 9%nat /\
    (returns (_generate_kif_and_log (game s)) -> returns (_game_state_to_json s)) /\
    (forall p, _game_state_to_json s = Ok p -> js_annan_info p = annan_info) /\
    forall r c : nat, (r < 9)%nat -> (c < 9)%nat ->
      exists cell,
        annan_info !! r ≫= (.!! c) = Some cell /\
        (is_Some cell <->
           exists piece eff,
             board (state (game s)) (mkSquare (9 - Z.of_nat c) (Z.of_nat r)) = Some piece /\
             piece_type piece <> OU /\
             get_effective_piece_type (board (state (game s)))
               (mkSquare (9 - Z.of_nat c) (Z.of_nat r)) (color piece) = Ok (Some eff) /\
             eff <> piece_type piece) /\
        (forall piece e,
           board (state (game s)) (mkSquare (9 - Z.of_nat c) (Z.of_nat r)) = Some piece ->
           get_effective_piece_type (board (state (game s)))
             (mkSquare (9 - Z.of_nat c) (Z.of_nat r)) (color piece) = Raise e ->
           cell = None).
Proof.
  destruct (rank_loop_inv (state (game s)) ranks [] []) as (rows & Hloop & Hlen).
  rewrite !app_nil_l in Hloop.
  eexists _, _. split; [exact Hloop |]. split_and!.
  - done.
  - by rewrite length_fmap.
  - intros [[log kif] Hgen]. unfold _game_state_to_json.
    rewrite Hloop. unfold mbind, result_bind. rewrite Hgen. by eexists.
  - intros p Hp. unfold _game_state_to_json in Hp. rewrite Hloop in Hp.
    unfold mbind, result_bind, mret, result_ret in Hp.
    destruct (_generate_kif_and_log _) as [[log kif]|]; by simplify_eq.
  - intros r c Hr Hc.
    exists (annotation (state (game s)) (mkSquare (9 - Z.of_nat c) (Z.of_nat r))).
    split.
    { rewrite list_lookup_fmap, (ranks_lookup r Hr).
      cbn [fmap option_fmap option_map mbind option_bind].
      by rewrite list_lookup_fmap, (files_lookup c Hc). }
    unfold annotation.
    destruct (board (state (game s)) _) as [piece|] eqn:Hb.
    + destruct (annan_cell_spec (state (game s))
                  (mkSquare (9 - Z.of_nat c) (Z.of_nat r)) piece) as [Hiff _].
      split.
      * rewrite Hiff. split.
        -- intros (Hou & eff & Hq & Hne). by exists piece, eff.
        -- intros (piece' & eff & ? & Hou & Hq & Hne). simplify_eq. eauto.
      * intros piece' e ? Hq. simplify_eq. by eapply annan_cell_raise.
    + split; [|done]. split; [by intros [? ?] |].
      intros (piece & eff & ? & _). done.
Qed.

Lemma annotation_grid_witness :
  exists board_data annan_info,
    rank_loop (E := SampleServer.engine) (state Sample.game) ranks [] []
    = Ok (board_data, annan_info) /\
    (exists cell,
       annan_info !! 6%nat ≫= (.!! 7%nat) = Some cell /\
       (is_Some cell <->
          exists piece eff,
            board (state Sample.game) (mkSquare 2 6) = Some piece /\
            piece_type piece <> OU /\
            SampleServer.effective (board (state Sample.game)) (mkSquare 2 6) (color piece)
            = Ok (Some eff) /\
            eff <> piece_type piece) /\
       (forall piece e,
          board (state Sample.game) (mkSquare 2 6) = Some piece ->
          SampleServer.effective (board (state Sample.game)) (mkSquare 2 6) (color piece)
          = Raise e ->
          cell = None)) /\
    returns (_game_state_to_json (E := SampleServer.engine) SampleServer.server).
Proof.
  destruct (annotation_grid (E := SampleServer.engine) SampleServer.server)
    as (board_data & annan_info & Hloop & _ & _ & Hret & _ & Hcell).
  exists board_data, annan_info. split; [exact Hloop |]. split.
  - apply (Hcell 6%nat 7%nat); lia.
  - apply Hret. exists (Sample.log, Sample.kif). exact sample_generate.
Defined.

(** The sample grid: the pawn in front of the rook is annotated with the
    rook's kind, and the lance, for which the sample engine raises, is not
    annotated. *)
Lemma annotation_grid_sample :
  exists p,
    _game_state_to_json (E := SampleServer.engine) SampleServer.server = Ok p /\
    js_annan_info p !! 6%nat ≫= (.!! 7%nat)
    = Some (Some {| effective_type := "HI"; effective_kanji := "飛" |}) /\
    js_annan_info p !! 0%nat ≫= (.!! 8%nat) = Some None /\
    SampleServer.effective (board (state Sample.game)) (mkSquare 1 0) WHITE
    = Raise (EngineError "no square behind").
Proof. eexists. split; [vm_compute; reflexivity |]. split_and!; reflexivity. Qed.

(** ** Legal moves *)

(** C8. The projection returns on every session whose history is
    well-formed; and in every payload it returns the legal-move list is
    the engine's enumeration, token by token, when the result is
    [ONGOING], and is empty for any other result. *)
Theorem legal_moves_only_when_ongoing `{E : RulesEngine} (s : Server) :
  (wf_history (game s) -> returns (_game_state_to_json s)) /\
  forall p,
    _game_state_to_json s = Ok p ->
    (result_value (game s) = "ONGOING" ->
       js_legal_moves p = to_sfen <$> get_legal_moves (game s)) /\
    (result_value (game s) <> "ONGOING" -> js_legal_moves p = []).
Proof.
  destruct (game_state_to_json_inv s) as (board_data & _ & Hjson).
  split.
  - intros (log & kif & Hgen)%generate_total. rewrite Hjson.
    unfold mbind, result_bind. rewrite Hgen. by eexists.
  - intros p Hp. rewrite Hjson in Hp.
    unfold mbind, result_bind, mret, result_ret in Hp.
    destruct (_generate_kif_and_log _) as [[log kif]|]; simplify_eq. simpl.
    split; intros Hres.
    + by rewrite bool_decide_eq_true_2.
    + by rewrite bool_decide_eq_false_2.
Qed.

Lemma legal_moves_only_when_ongoing_witness :
  returns (_game_state_to_json (E := SampleServer.engine) SampleServer.server) /\
  (exists p,
     _game_state_to_json (E := SampleServer.engine) SampleServer.server = Ok p /\
     js_legal_moves p = ["7574"; "KA*55"]) /\
  (exists p,
     _game_state_to_json (E := SampleServer.engine)
       (SampleServer.resigned SampleServer.server) = Ok p /\
     js_legal_moves p = []).
Proof.
  split; [|split].
  - apply (legal_moves_only_when_ongoing (E := SampleServer.engine) SampleServer.server).
    exact sample_wf.
  - destruct (_game_state_to_json (E := SampleServer.engine) SampleServer.server)
      as [p|e] eqn:Hp; [|by vm_compute in Hp].
    exists p. split; [done |].
    destruct (legal_moves_only_when_ongoing (E := SampleServer.engine)
                SampleServer.server) as [_ H].
    destruct (H p Hp) as [Hon _]. rewrite Hon by reflexivity. reflexivity.
  - destruct (_game_state_to_json (E := SampleServer.engine)
                (SampleServer.resigned SampleServer.server))
      as [p|e] eqn:Hp; [|by vm_compute in Hp].
    exists p. split; [done |].
    destruct (legal_moves_only_when_ongoing (E := SampleServer.engine)
                (SampleServer.resigned SampleServer.server)) as [_ H].
    destruct (H p Hp) as [_ Hoff]. apply Hoff. by vm_compute.
Defined.

(** ** The session controller *)

Ltac route :=
  unfold do_POST;
  repeat (case_bool_decide; [discriminate |]);
  case_bool_decide; [| done].

(** C7, as stated, fails: on a finished game without an agent the request
    is answered with [AIUnavailable], the first guard, not with
    [GameAlreadyOver]. *)
Lemma ai_move_finished_game_without_agent :
  ai_player (SampleServer.resigned SampleServer.server) = None /\
  result_value (game (SampleServer.resigned SampleServer.server)) <> "ONGOING" /\
  do_POST (E := SampleServer.engine) "/api/ai_move" ∅
    (SampleServer.resigned SampleServer.server)
  = (SampleServer.resigned SampleServer.server, Ok AIUnavailable) /\
  do_POST (E := SampleServer.engine) "/api/ai_move" ∅
    (SampleServer.resigned SampleServer.server)
  <> (SampleServer.resigned SampleServer.server, Ok GameAlreadyOver).
Proof. split_and!; [reflexivity | by vm_compute | reflexivity | by vm_compute]. Qed.

(** C7, amended.  Without an agent the request fails with [AIUnavailable];
    with an agent and a result other than [ONGOING] it fails with
    [GameAlreadyOver]; and when the agent is asked and returns no move,
    the current state is projected.  In all three cases the globals, the
    session and its history among them, are what they were. *)
Theorem ai_move_guards `{E : RulesEngine} (req : gmap string JsonValue) (s : Server) :
  (ai_player s = None ->
     do_POST "/api/ai_move" req s = (s, Ok AIUnavailable)) /\
  (forall player,
     ai_player s = Some player ->
     result_value (game s) <> "ONGOING" ->
     do_POST "/api/ai_move" req s = (s, Ok GameAlreadyOver)) /\
  (forall player,
     ai_player s = Some player ->
     result_value (game s) = "ONGOING" ->
     select_move player (state (game s)) 0 = None ->
     do_POST "/api/ai_move" req s
     = (s, p ← _game_state_to_json s; mret (_json_response (StateJson p) 200))).
Proof.
  split_and!.
  - intros Hnone. route. by rewrite Hnone.
  - intros player Hsome Hover. route. rewrite Hsome.
    by rewrite bool_decide_eq_true_2.
  - intros player Hsome Hon Hmove. route. rewrite Hsome.
    rewrite bool_decide_eq_false_2 by (intros Hn; by apply Hn).
    by rewrite Hmove.
Qed.

Lemma ai_move_guards_witness :
  do_POST (E := SampleServer.engine) "/api/ai_move" ∅ SampleServer.server
  = (SampleServer.server, Ok AIUnavailable) /\
  do_POST (E := SampleServer.engine) "/api/ai_move" ∅
    (SampleServer.resigned SampleServer.server_with_agent)
  = (SampleServer.resigned SampleServer.server_with_agent, Ok GameAlreadyOver) /\
  do_POST (E := SampleServer.engine) "/api/ai_move" ∅ SampleServer.server_with_agent
  = (SampleServer.server_with_agent,
     p ← _game_state_to_json (E := SampleServer.engine) SampleServer.server_with_agent;
     mret (_json_response (StateJson p) 200)).
Proof.
  split_and!.
  - apply (ai_move_guards (E := SampleServer.engine) ∅ SampleServer.server).
    reflexivity.
  - apply (ai_move_guards (E := SampleServer.engine) ∅
             (SampleServer.resigned SampleServer.server_with_agent))
      with (player := SampleServer.idle_agent); [reflexivity | by vm_compute].
  - apply (ai_move_guards (E := SampleServer.engine) ∅ SampleServer.server_with_agent)
      with (player := SampleServer.idle_agent); reflexivity.
Defined.

(** C9. A reset replaces the session by a fresh one and leaves the AI side
    assignment, whatever it is, and the agent as they were. *)
Theorem reset_keeps_ai_assignment `{E : RulesEngine}
    (req : gmap string JsonValue) (s : Server) :
  game (do_POST "/api/reset" req s).1 = Game_new /\
  ai_color (do_POST "/api/reset" req s).1 = ai_color s /\
  ai_player (do_POST "/api/reset" req s).1 = ai_player s.
Proof. route. done. Qed.


(** A request without a [Content-Length] header, or with one that reads as
    0, has the empty dict for body; nothing is read or decoded. *)
Lemma read_body_empty `{L : PyLib} (rq : Request) :
  content_length rq = None \/
    (exists h, content_length rq = Some h /\ py_int h = Ok 0) ->
  _read_body rq = Ok (JDict []).
Proof.
  unfold _read_body. intros [->|(h & -> & ->)]; reflexivity.
Qed.

(** When the body cannot be read as a dict, the request raises before any
    operation runs and the globals are what they were. *)
Lemma post_raw_body_failure `{E : RulesEngine} `{L : PyLib}
    (path : string) (rq : Request) (s : Server) (e : exn) :
  path = "/api/move" \/ path = "/api/config" ->
  _read_body rq ≫= body_dict = Raise e ->
  do_POST_raw path rq s = (s, Raise e).
Proof.
  intros Hpath Hbody. unfold do_POST_raw. rewrite Hbody.
  by destruct Hpath as [->| ->].
Qed.





(** * Further properties of the notation synthesizer *)

(** ** Where the loop body returns *)

Lemma list_getitem_returns {A} (l : list A) (i : Z) :
  returns (list_getitem l i) <-> - Z.of_nat (length l) <= i < Z.of_nat (length l).
Proof.
  unfold returns, list_getitem. cbv zeta.
  destruct (Z.ltb_spec i 0) as [Hneg|Hpos].
  - destruct (Z.ltb_spec (i + Z.of_nat (length l)) 0) as [Hlow|Hlow]; simpl.
    { split; [by intros [? ?] | lia]. }
    destruct (Z.leb_spec (Z.of_nat (length l)) (i + Z.of_nat (length l))); [lia |].
    destruct (lookup_lt_is_Some_2 l (Z.to_nat (i + Z.of_nat (length l)))) as [a ->]; [lia |].
    split; [lia | by eexists].
  - destruct (Z.ltb_spec i 0); [lia |]. simpl.
    destruct (Z.leb_spec (Z.of_nat (length l)) i); simpl.
    { split; [by intros [? ?] | lia]. }
    destruct (lookup_lt_is_Some_2 l (Z.to_nat i)) as [a ->]; [lia |].
    split; [lia | by eexists].
Qed.

Lemma list_getitem_raise {A} (l : list A) (i : Z) e :
  list_getitem l i = Raise e -> e = IndexError.
Proof. unfold list_getitem. intros H. repeat case_match; by simplify_eq. Qed.

Lemma indexable_spec z : indexable z = true <-> -10 <= z < 10.
Proof. unfold indexable. rewrite andb_true_iff, Z.leb_le, Z.ltb_lt. lia. Qed.

Lemma zenkaku_returns z : returns (list_getitem _ZENKAKU_NUMS z) <-> indexable z = true.
Proof. by rewrite list_getitem_returns, indexable_spec. Qed.

Lemma kanji_returns z : returns (list_getitem _KANJI_NUMS z) <-> indexable z = true.
Proof. by rewrite list_getitem_returns, indexable_spec. Qed.

(** The loop body returns exactly on the renderable moves, whatever the
    cursor. *)
Lemma move_strs_returns prev st m :
  returns (move_strs prev st m) <-> renderable st m = true.
Proof.
  unfold renderable. rewrite !andb_true_iff, <- zenkaku_returns, <- kanji_returns. split.
  - intros [[k l] H]. destruct m as [pt d|src d pr].
    + apply move_strs_drop in H as (zf & kr & pc & Hz & Hk & _).
      split_and!; [by exists zf | by exists kr | done].
    + apply move_strs_board in H as (zf & kr & pc & piece & Hb & _ & Hz & Hk & _).
      simpl. rewrite Hb. split_and!; [by exists zf | by exists kr | done].
  - intros [[[zf Hz] [kr Hk]] Hsrc]. unfold returns, move_strs.
    destruct m as [pt d|src d pr]; simpl in *.
    + destruct (piece_kanji_total pt) as (pc & Hpc & _).
      unfold mbind, result_bind. rewrite Hpc, Hz, Hk. by eexists.
    + destruct (board st src) as [piece|]; [|discriminate].
      destruct (piece_kanji_total (piece_type piece)) as (pc & Hpc & _).
      unfold mbind, result_bind. rewrite Hpc, Hz, Hk.
      destruct (same_as_prev prev d); by eexists.
Qed.

(** The loop body raises nothing but an [IndexError], for a coordinate
    outside the tables, or the [AttributeError] of an empty source square:
    the Piece Notation Table has every kind. *)
Lemma move_strs_raise prev st m e :
  move_strs prev st m = Raise e ->
  e = IndexError \/ e = AttributeError "piece_type".
Proof.
  unfold move_strs. intros H. destruct m as [pt d|src d pr].
  - destruct (piece_kanji_total pt) as (pc & Hpc & _).
    unfold mbind, result_bind in H. rewrite Hpc in H.
    repeat case_match; simplify_eq; left; by eapply list_getitem_raise.
  - destruct (board st src) as [piece|]; [|simpl in H; simplify_eq; by right].
    destruct (piece_kanji_total (piece_type piece)) as (pc & Hpc & _).
    unfold mbind, result_bind, mret, result_ret in H. rewrite Hpc in H.
    repeat case_match; simplify_eq; left; by eapply list_getitem_raise.
Qed.

(** ** The loop, piecewise *)

Lemma kif_loop_app g ms1 ms2 : forall i prev la kl,
  kif_loop g i (ms1 ++ ms2) prev la kl =
    match kif_loop g i ms1 prev la kl with
    | Ok (la', kl') =>
        kif_loop g (i + length ms1) ms2 (cursor_after prev ms1) la' kl'
    | Raise e => Raise e
    end.
Proof.
  induction ms1 as [|m ms1 IH]; intros i prev la kl.
  - simpl. by rewrite Nat.add_0_r.
  - cbn [app kif_loop]. unfold mbind, result_bind.
    destruct (list_getitem _ _) as [st|]; [|done].
    destruct (move_strs prev st m) as [[k l]|]; [|done].
    rewrite IH. cbn [length].
    replace (i + S (length ms1))%nat with (S i + length ms1)%nat by lia.
    reflexivity.
Qed.

(** The loop reads the snapshot list of the game only at the indices of the
    moves it walks. *)
Lemma kif_loop_ext g g' ms : forall i prev la kl,
  (forall j, (j < length ms)%nat ->
     _state_history g !! (i + j)%nat = _state_history g' !! (i + j)%nat) ->
  kif_loop g i ms prev la kl = kif_loop g' i ms prev la kl.
Proof.
  induction ms as [|m ms IH]; intros i prev la kl Hagree; [done |].
  cbn [kif_loop]. rewrite !list_getitem_nonneg, !Nat2Z.id by lia.
  specialize (Hagree O ltac:(simpl; lia)) as H0. rewrite Nat.add_0_r in H0. rewrite H0.
  unfold mbind, result_bind.
  destruct (_state_history g' !! i) as [st|]; [|done].
  destruct (move_strs prev st m) as [[k l]|]; [|done].
  apply IH. intros j Hj.
  replace (S i + j)%nat with (i + S j)%nat by lia. apply Hagree. simpl. lia.
Qed.

Lemma cursor_after_snoc prev ms m : cursor_after prev (ms ++ [m]) = Some (dst m).
Proof. unfold cursor_after. by rewrite foldl_app. Qed.

Lemma cursor_after_last ms : cursor_after None ms = dst <$> last ms.
Proof.
  destruct ms as [|m ms] using rev_ind; [done |].
  by rewrite cursor_after_snoc, last_snoc.
Qed.

Lemma cursor_after_take ms n :
  (n <= length ms)%nat -> cursor_after None (take n ms) = prev_dst_at ms n.
Proof.
  intros Hn. rewrite cursor_after_last. destruct n as [|j]; [done |].
  simpl prev_dst_at. f_equal.
  rewrite last_lookup, length_take, Nat.min_l by lia. simpl.
  apply lookup_take_lt. lia.
Qed.

Lemma join_snoc sep (l : list string) x :
  l <> [] -> join sep (l ++ [x]) = join sep l +:+ sep +:+ x.
Proof.
  induction l as [|a l IH]; [done |]. intros _.
  destruct l as [|b l]; [reflexivity |].
  change (join sep ((a :: b :: l) ++ [x]))
    with (a +:+ sep +:+ join sep ((b :: l) ++ [x])).
  rewrite IH by done.
  change (join sep (a :: b :: l)) with (a +:+ sep +:+ join sep (b :: l)).
  by rewrite !append_assoc.
Qed.

(** The loop over renderable moves returns. *)
Lemma kif_loop_returns g ms : forall i prev la kl,
  (forall j m, ms !! j = Some m ->
     exists st, _state_history g !! (i + j)%nat = Some st /\ renderable st m = true) ->
  exists log kif, kif_loop g i ms prev la kl = Ok (log, kif).
Proof.
  induction ms as [|m ms IH]; intros i prev la kl Hok; [simpl; eauto |].
  cbn [kif_loop]. unfold mbind, result_bind.
  destruct (Hok O m eq_refl) as (st & Hst & Hm).
  rewrite Nat.add_0_r in Hst. apply list_getitem_nat in Hst. rewrite Hst.
  apply move_strs_returns with (prev := prev) in Hm as [[k l] ->].
  apply IH. intros j m' Hj.
  replace (S i + j)%nat with (i + S j)%nat by lia. by apply Hok.
Qed.

Lemma kif_loop_raise g ms : forall i prev la kl e,
  kif_loop g i ms prev la kl = Raise e ->
  e = IndexError \/ e = AttributeError "piece_type".
Proof.
  induction ms as [|m ms IH]; intros i prev la kl e H; [done |].
  cbn [kif_loop] in H. unfold mbind, result_bind in H.
  destruct (list_getitem _ _) as [st|e'] eqn:Hst.
  - destruct (move_strs prev st m) as [[k l]|e''] eqn:Hm.
    + by eapply IH.
    + simplify_eq. by eapply move_strs_raise.
  - simplify_eq. left. by eapply list_getitem_raise.
Qed.

Lemma kif_loop_first_failure g ms1 m ms2 la kl :
  (forall j mj, ms1 !! j = Some mj ->
     exists st, _state_history g !! j = Some st /\ renderable st mj = true) ->
  (_state_history g !! length ms1 = None ->
     kif_loop g 0 (ms1 ++ m :: ms2) None la kl = Raise IndexError) /\
  (forall st e,
     _state_history g !! length ms1 = Some st ->
     move_strs (cursor_after None ms1) st m = Raise e ->
     kif_loop g 0 (ms1 ++ m :: ms2) None la kl = Raise e).
Proof.
  intros Hok. rewrite kif_loop_app.
  destruct (kif_loop_returns g ms1 O None la kl Hok) as (la' & kl' & ->).
  cbn [kif_loop]. rewrite list_getitem_nonneg, Nat2Z.id by lia. simpl Nat.add.
  split.
  - by intros ->.
  - intros st e -> Hm. unfold mbind, result_bind. by rewrite Hm.
Qed.

(** ** Domain and failures of the synthesizer *)

(** The synthesizer returns exactly on the histories that have a snapshot
    for every move and in which every move is renderable from its
    snapshot. *)
Theorem synthesizer_domain (g : Game) :
  returns (_generate_kif_and_log g) <->
  (length (_move_history g) <= length (_state_history g))%nat /\
  forall i m st,
    _move_history g !! i = Some m ->
    _state_history g !! i = Some st ->
    renderable st m = true.
Proof.
  split.
  - intros [[log kif] Hgen].
    apply generate_inv in Hgen as (ks & _ & _ & _ & _ & Hall). split.
    + destruct (decide (length (_move_history g) <= length (_state_history g))%nat)
        as [|Hlt]; [done |].
      destruct (lookup_lt_is_Some_2 (_move_history g) (length (_state_history g)))
        as [m Hm]; [lia |].
      destruct (Hall _ _ Hm) as (st & _ & _ & Hst & _).
      apply lookup_lt_Some in Hst. lia.
    + intros i m st Hm Hst.
      destruct (Hall _ _ Hm) as (st' & k & l & Hst' & Hk & _). simplify_eq.
      apply move_strs_returns with (prev := prev_dst_at (_move_history g) i).
      by exists (k, l).
  - intros [Hlen Hall]. unfold returns, _generate_kif_and_log.
    destruct (kif_loop_returns g (_move_history g) O None [] kif_header)
      as (log & kl & ->).
    + intros j m Hm.
      destruct (lookup_lt_is_Some_2 (_state_history g) j) as [st Hst].
      { apply lookup_lt_Some in Hm. lia. }
      exists st. split; [done | by eapply Hall].
    + by eexists.
Qed.

Lemma synthesizer_domain_witness :
  returns (_generate_kif_and_log Sample.game) /\
  ~ returns (_generate_kif_and_log
               (mkGame Sample.moves (take 4 Sample.snapshots) (state Sample.game) "ONGOING")).
Proof.
  split.
  - apply (synthesizer_domain Sample.game). split; [simpl; lia |].
    intros i m st Hm Hst.
    do 6 (destruct i as [|i];
            [injection Hm as <-; injection Hst as <-; reflexivity |]).
    done.
  - intros [Hlen _]%synthesizer_domain. simpl in Hlen. lia.
Defined.

(** When the synthesizer raises, it raises an [IndexError], for a missing
    snapshot or a coordinate outside the tables, or the [AttributeError] of
    an empty source square; never a [KeyError] of the Piece Notation
    Table. *)
Theorem synthesizer_exceptions (g : Game) (e : exn) :
  _generate_kif_and_log g = Raise e ->
  e = IndexError \/ e = AttributeError "piece_type".
Proof.
  unfold _generate_kif_and_log, mbind, result_bind. intros H.
  destruct (kif_loop _ _ _ _ _ _) as [[la kl]|e'] eqn:Hloop; simplify_eq.
  by eapply kif_loop_raise.
Qed.

Lemma synthesizer_exceptions_witness :
  _generate_kif_and_log
    (mkGame Sample.moves (take 4 Sample.snapshots) (state Sample.game) "ONGOING")
  = Raise IndexError /\
  (IndexError = IndexError \/ IndexError = AttributeError "piece_type").
Proof.
  split; [reflexivity |].
  apply (synthesizer_exceptions
           (mkGame Sample.moves (take 4 Sample.snapshots) (state Sample.game) "ONGOING")).
  reflexivity.
Defined.

(** The first move that cannot be rendered decides the outcome: if the
    moves before move [n] are renderable, a missing snapshot [n] makes the
    synthesizer raise [IndexError], and an exception of the loop body on
    move [n] is the exception of the synthesizer, whatever follows. *)
Theorem synthesizer_first_failure (g : Game) (n : nat) (m : Move) :
  _move_history g !! n = Some m ->
  (forall j mj, (j < n)%nat -> _move_history g !! j = Some mj ->
     exists st, _state_history g !! j = Some st /\ renderable st mj = true) ->
  (_state_history g !! n = None -> _generate_kif_and_log g = Raise IndexError) /\
  (forall st e,
     _state_history g !! n = Some st ->
     move_strs (prev_dst_at (_move_history g) n) st m = Raise e ->
     _generate_kif_and_log g = Raise e).
Proof.
  intros Hm Hbefore.
  pose proof (lookup_lt_Some _ _ _ Hm) as Hn.
  assert (Hok : forall j mj, take n (_move_history g) !! j = Some mj ->
            exists st, _state_history g !! j = Some st /\ renderable st mj = true).
  { intros j mj Hj. apply lookup_take_Some in Hj as [Hj Hlt]. by eapply Hbefore. }
  destruct (kif_loop_first_failure g (take n (_move_history g)) m
              (drop (S n) (_move_history g)) [] kif_header Hok) as [Hnone Hsome].
  rewrite take_drop_middle in Hnone, Hsome by done.
  rewrite length_take, Nat.min_l in Hnone, Hsome by lia.
  rewrite cursor_after_take in Hsome by lia.
  unfold _generate_kif_and_log, mbind, result_bind. split.
  - intros Hst. by rewrite Hnone.
  - intros st e Hst He. by rewrite (Hsome st e Hst He).
Qed.

Lemma synthesizer_first_failure_witness :
  _generate_kif_and_log
    (mkGame Sample.moves (take 4 Sample.snapshots) (state Sample.game) "ONGOING")
  = Raise IndexError /\
  _generate_kif_and_log
    (mkGame (take 2 Sample.moves ++ [BoardMove (mkSquare 9 9) (mkSquare 2 1) true])
            Sample.snapshots (state Sample.game) "ONGOING")
  = Raise (AttributeError "piece_type").
Proof.
  split.
  - apply (synthesizer_first_failure
             (mkGame Sample.moves (take 4 Sample.snapshots) (state Sample.game) "ONGOING")
             4 (DropMove KA (mkSquare 5 4))); [reflexivity | | reflexivity].
    intros j mj Hj Hmj.
    do 4 (destruct j as [|j]; [injection Hmj as <-; eexists; split; reflexivity |]). lia.
  - set (g := mkGame (take 2 Sample.moves ++ [BoardMove (mkSquare 9 9) (mkSquare 2 1) true])
                Sample.snapshots (state Sample.game) "ONGOING").
    destruct (synthesizer_first_failure g 2 (BoardMove (mkSquare 9 9) (mkSquare 2 1) true))
      as [_ Hsome]; [reflexivity | |].
    + intros j mj Hj Hmj.
      do 2 (destruct j as [|j]; [injection Hmj as <-; eexists; split; reflexivity |]). lia.
    + apply (Hsome (Sample.snapshot Sample.pieces2 BLACK)); reflexivity.
Defined.

(** ** Appending a move *)

(** Replaying a history that grew by one move gives the transcript and the
    log of the history before, with one line and one entry added: on a
    session with one snapshot per move, if the new move is rendered as
    [(k, l)] from the new snapshot and the destination of the last move,
    the new transcript is the old one, a line break and the numbered [k],
    and the new log is the old one followed by [l]. *)
Theorem transcript_append (g : Game) (m : Move) (st cur : State) (res : string)
    (log : list string) (kif k l : string) :
  length (_state_history g) = length (_move_history g) ->
  _generate_kif_and_log g = Ok (log, kif) ->
  move_strs (dst <$> last (_move_history g)) st m = Ok (k, l) ->
  _generate_kif_and_log
    (mkGame (_move_history g ++ [m]) (_state_history g ++ [st]) cur res)
  = Ok (log ++ [l],
        kif +:+ String nl EmptyString +:+ kif_line (length (_move_history g)) k).
Proof.
  intros Hlen Hgen Hm.
  unfold _generate_kif_and_log, mbind, result_bind, mret, result_ret in *.
  destruct (kif_loop g _ _ _ _ _) as [[la kl]|] eqn:Hloop; simplify_eq.
  cbn [_move_history]. rewrite kif_loop_app.
  rewrite <- (kif_loop_ext g); last first.
  { intros j Hj. cbn [_state_history]. rewrite lookup_app_l by lia. done. }
  rewrite Hloop. cbn [kif_loop].
  rewrite list_getitem_nonneg, Nat2Z.id by lia. cbn [_state_history].
  rewrite lookup_app_r by (simpl; lia).
  replace (0 + length (_move_history g) - length (_state_history g))%nat with O
    by (simpl; lia).
  cbn [lookup list_lookup]. unfold mbind, result_bind.
  rewrite cursor_after_last, Hm.
  apply kif_loop_inv in Hloop as (ls & ks & _ & -> & _).
  rewrite join_snoc by done. reflexivity.
Qed.

Lemma transcript_append_witness :
  _generate_kif_and_log
    (mkGame (take 5 Sample.moves ++ [DropMove KA (mkSquare 4 3)])
            (take 5 Sample.snapshots ++ [Sample.snapshot Sample.pieces5 WHITE])
            (state Sample.game) "ONGOING")
  = Ok (take 5 Sample.log ++ ["☖４三角打"],
        join (String nl EmptyString) (take 10 Sample.lines)
          +:+ String nl EmptyString +:+ kif_line 5 "４三角打").
Proof.
  apply (transcript_append
           (mkGame (take 5 Sample.moves) (take 5 Sample.snapshots)
                   (state Sample.game) "ONGOING")); reflexivity.
Defined.

(** ** Log entries and drops *)

(** The log entry of a move is its turn glyph followed by the formal
    rendering with the destination always spelled out: the two differ, the
    turn glyph apart, only where the transcript has the same-square token,
    and what follows the turn glyph in a log entry never starts with that
    token. *)
Theorem log_entry_spells_destination (g : Game) (log : list string) (kif : string)
    (i : nat) (m : Move) :
  _generate_kif_and_log g = Ok (log, kif) ->
  _move_history g !! i = Some m ->
  exists st r zf kr tail,
    _state_history g !! i = Some st /\
    formal_rendering kif i r /\
    list_getitem _ZENKAKU_NUMS (file (dst m)) = Ok zf /\
    list_getitem _KANJI_NUMS (rank (dst m)) = Ok kr /\
    log !! i = Some (turn_mark st +:+ zf +:+ kr +:+ tail) /\
    (r = zf +:+ kr +:+ tail \/ r = same_token +:+ tail) /\
    String.prefix same_token (zf +:+ kr +:+ tail) = false.
Proof.
  intros Hgen Hm.
  destruct (rendering_inv _ _ _ _ _ Hgen Hm) as (st & k & l & Hst & Hk & Hl & Hr).
  destruct m as [pt d|src d pr].
  - apply move_strs_drop in Hk as (zf & kr & pc & Hz & Hkr & Hpc & -> & ->).
    apply piece_kanji_inv in Hpc as (_ & Hns & _).
    exists st, (zf +:+ kr +:+ pc +:+ "打"), zf, kr, (pc +:+ "打").
    split_and!; try done; [by left |].
    apply coords_not_same_start; eauto using list_getitem_elem.
  - apply move_strs_board in Hk as (zf & kr & pc & piece & _ & Hpc & Hz & Hkr & -> & ->).
    apply piece_kanji_inv in Hpc as (_ & Hns & _).
    eexists st, _, zf, kr, (pc +:+ promote_mark pr +:+ src_suffix src).
    split_and!; try done.
    + destruct (same_as_prev _ _); [by right | left; by rewrite append_assoc].
    + apply coords_not_same_start; eauto using list_getitem_elem.
Qed.

Lemma log_entry_spells_destination_witness :
  exists st r zf kr tail,
    Sample.snapshots !! 3%nat = Some st /\
    formal_rendering Sample.kif 3 r /\
    list_getitem _ZENKAKU_NUMS 2 = Ok zf /\
    list_getitem _KANJI_NUMS 1 = Ok kr /\
    Sample.log !! 3%nat = Some (turn_mark st +:+ zf +:+ kr +:+ tail) /\
    (r = zf +:+ kr +:+ tail \/ r = same_token +:+ tail) /\
    String.prefix same_token (zf +:+ kr +:+ tail) = false.
Proof.
  exact (log_entry_spells_destination Sample.game Sample.log Sample.kif 3%nat
           (BoardMove (mkSquare 3 0) (mkSquare 2 1) false) sample_generate eq_refl).
Defined.

(** A drop is rendered as the file and rank glyphs of its destination, the
    table glyph of the dropped kind and the drop marker, and its log entry
    is the turn glyph of its snapshot followed by exactly that. *)
Theorem drop_rendering (g : Game) (log : list string) (kif : string)
    (i : nat) (pt : PieceType) (d : Square) :
  _generate_kif_and_log g = Ok (log, kif) ->
  _move_history g !! i = Some (DropMove pt d) ->
  exists st zf kr glyph,
    _state_history g !! i = Some st /\
    list_getitem _ZENKAKU_NUMS (file d) = Ok zf /\
    list_getitem _KANJI_NUMS (rank d) = Ok kr /\
    _PIECE_KANJI !! value pt = Some glyph /\
    formal_rendering kif i (zf +:+ kr +:+ glyph +:+ "打") /\
    log !! i = Some (turn_mark st +:+ zf +:+ kr +:+ glyph +:+ "打").
Proof.
  intros Hgen Hm.
  destruct (rendering_inv _ _ _ _ _ Hgen Hm) as (st & k & l & Hst & Hk & Hl & Hr).
  apply move_strs_drop in Hk as (zf & kr & pc & Hz & Hkr & Hpc & -> & ->).
  exists st, zf, kr, pc. split_and!; try done.
  unfold dict_getitem in Hpc. by destruct (_PIECE_KANJI !! _); simplify_eq.
Qed.

Lemma drop_rendering_witness :
  exists st zf kr glyph,
    Sample.snapshots !! 5%nat = Some st /\
    list_getitem _ZENKAKU_NUMS 4 = Ok zf /\
    list_getitem _KANJI_NUMS 3 = Ok kr /\
    _PIECE_KANJI !! "KA" = Some glyph /\
    formal_rendering Sample.kif 5 (zf +:+ kr +:+ glyph +:+ "打") /\
    Sample.log !! 5%nat = Some (turn_mark st +:+ zf +:+ kr +:+ glyph +:+ "打").
Proof.
  exact (drop_rendering Sample.game Sample.log Sample.kif 5%nat KA (mkSquare 4 3)
           sample_generate eq_refl).
Defined.

(** * Further properties of the state projector *)

Lemma value_inj (a b : PieceType) : value a = value b -> a = b.
Proof. destruct a, b; intros H; first [reflexivity | discriminate H]. Qed.

Lemma board_cell_of_total (piece : Piece) :
  exists glyph,
    _PIECE_KANJI !! value (piece_type piece) = Some glyph /\
    dict_getitem _PIECE_KANJI (value (piece_type piece)) = Ok glyph /\
    board_cell_of piece
    = Some {| cell_type := value (piece_type piece);
              cell_kanji := glyph;
              cell_color := match color piece with
                            | BLACK => "BLACK"
                            | WHITE => "WHITE"
                            end |}.
Proof.
  destruct (piece_kanji_total (piece_type piece)) as (glyph & Hg & _).
  exists glyph. unfold board_cell_of, dict_getitem in *.
  destruct (_PIECE_KANJI !! _) as [g'|]; simplify_eq. done.
Qed.

Lemma file_loop_cells `{E : RulesEngine} st rank fs : forall row annan_row,
  file_loop st rank fs row annan_row
  = Ok (row ++ ((fun f => board st (mkSquare f rank) ≫= board_cell_of) <$> fs),
        annan_row ++ ((fun f => annotation st (mkSquare f rank)) <$> fs)).
Proof.
  induction fs as [|f fs IH]; intros row annan_row.
  - by rewrite !app_nil_r.
  - cbn [file_loop fmap list_fmap]. unfold annotation at 1.
    destruct (board st (mkSquare f rank)) as [piece|] eqn:Hb.
    + destruct (board_cell_of_total piece) as (glyph & _ & -> & Hcell).
      unfold mbind at 1. unfold result_bind. rewrite IH, <- !app_assoc.
      cbn [mbind option_bind]. by rewrite Hcell.
    + by rewrite IH, <- !app_assoc.
Qed.

Lemma rank_loop_cells `{E : RulesEngine} st rs : forall board_data annan_info,
  rank_loop st rs board_data annan_info
  = Ok (board_data ++
          ((fun r => (fun f => board st (mkSquare f r) ≫= board_cell_of) <$> files) <$> rs),
        annan_info ++
          ((fun r => (fun f => annotation st (mkSquare f r)) <$> files) <$> rs)).
Proof.
  induction rs as [|r rs IH]; intros board_data annan_info.
  - by rewrite !app_nil_r.
  - cbn [rank_loop fmap list_fmap]. rewrite file_loop_cells.
    unfold mbind, result_bind. by rewrite IH, <- !app_assoc.
Qed.

(** The two grids of a payload. *)
Lemma payload_grids `{E : RulesEngine} (s : Server) (p : Payload) :
  _game_state_to_json s = Ok p ->
  js_board p
  = (fun r => (fun f => board (state (game s)) (mkSquare f r) ≫= board_cell_of) <$> files)
      <$> ranks /\
  js_annan_info p
  = (fun r => (fun f => annotation (state (game s)) (mkSquare f r)) <$> files) <$> ranks.
Proof.
  unfold _game_state_to_json. rewrite rank_loop_cells.
  unfold mbind, result_bind, mret, result_ret. intros H.
  destruct (_generate_kif_and_log _) as [[log kif]|]; by simplify_eq.
Qed.

Lemma grid_lookup {A} (f : Z -> Z -> A) (r c : nat) :
  (r < 9)%nat -> (c < 9)%nat ->
  ((fun rk => (fun fl => f fl rk) <$> files) <$> ranks) !! r ≫= (.!! c)
  = Some (f (9 - Z.of_nat c) (Z.of_nat r)).
Proof.
  intros Hr Hc. rewrite list_lookup_fmap, (ranks_lookup r Hr).
  cbn [fmap option_fmap option_map mbind option_bind].
  by rewrite list_lookup_fmap, (files_lookup c Hc).
Qed.

(** ** The board grid *)

(** Both grids of a payload have nine rows of nine cells.  The board cell
    in row [r], column [c] belongs to the square of file [9 - c], rank [r]:
    it is empty exactly when the square is, and otherwise carries the
    identifier of the piece's kind, its glyph from the Piece Notation Table
    and the name of its side. *)
Theorem board_grid `{E : RulesEngine} (s : Server) (p : Payload) :
  _game_state_to_json s = Ok p ->
  length (js_board p) = 9%nat /\ length (js_annan_info p) = 9%nat /\
  (forall row, row ∈ js_board p -> length row = 9%nat) /\
  (forall row, row ∈ js_annan_info p -> length row = 9%nat) /\
  forall r c : nat, (r < 9)%nat -> (c < 9)%nat ->
    exists cell,
      js_board p !! r ≫= (.!! c) = Some cell /\
      (cell = None <->
         board (state (game s)) (mkSquare (9 - Z.of_nat c) (Z.of_nat r)) = None) /\
      forall piece,
        board (state (game s)) (mkSquare (9 - Z.of_nat c) (Z.of_nat r)) = Some piece ->
        exists glyph,
          _PIECE_KANJI !! value (piece_type piece) = Some glyph /\
          cell = Some {| cell_type := value (piece_type piece);
                         cell_kanji := glyph;
                         cell_color := match color piece with
                                       | BLACK => "BLACK"
                                       | WHITE => "WHITE"
                                       end |}.
Proof.
  intros [-> ->]%payload_grids. split_and!.
  - by rewrite length_fmap.
  - by rewrite length_fmap.
  - intros row (rk & -> & _)%list_elem_of_fmap. by rewrite length_fmap.
  - intros row (rk & -> & _)%list_elem_of_fmap. by rewrite length_fmap.
  - intros r c Hr Hc. eexists. split; [by apply grid_lookup |].
    destruct (board (state (game s)) _) as [piece|] eqn:Hb.
    + destruct (board_cell_of_total piece) as (glyph & Hg & _ & Hcell).
      cbn [mbind option_bind]. rewrite Hcell. split; [done |].
      intros piece' ?. simplify_eq. by exists glyph.
    + split; done.
Qed.

Lemma board_grid_witness :
  exists p,
    _game_state_to_json (E := SampleServer.engine) SampleServer.server = Ok p /\
    length (js_board p) = 9%nat /\
    exists cell,
      js_board p !! 7%nat ≫= (.!! 7%nat) = Some cell /\
      (cell = None <-> board (state Sample.game) (mkSquare 2 7) = None) /\
      forall piece,
        board (state Sample.game) (mkSquare 2 7) = Some piece ->
        exists glyph,
          _PIECE_KANJI !! value (piece_type piece) = Some glyph /\
          cell = Some {| cell_type := value (piece_type piece);
                         cell_kanji := glyph;
                         cell_color := match color piece with
                                       | BLACK => "BLACK"
                                       | WHITE => "WHITE"
                                       end |}.
Proof.
  destruct (_game_state_to_json (E := SampleServer.engine) SampleServer.server)
    as [p|e] eqn:Hp; [|by vm_compute in Hp].
  exists p. split; [done |].
  destruct (board_grid (E := SampleServer.engine) SampleServer.server p Hp)
    as (Hlen & _ & _ & _ & Hcell).
  split; [exact Hlen |]. apply (Hcell 7%nat 7%nat); lia.
Defined.

(** ** Content of an annotation *)

(** A non-empty annotation cell sits on an occupied, non-royal square; it
    carries the identifier and the table glyph of the kind the engine
    returned for that square, and this identifier differs from the one in
    the board cell of the same square. *)
Theorem annotation_content `{E : RulesEngine} (s : Server) (p : Payload)
    (r c : nat) (a : AnnanCell) :
  _game_state_to_json s = Ok p ->
  (r < 9)%nat -> (c < 9)%nat ->
  js_annan_info p !! r ≫= (.!! c) = Some (Some a) ->
  exists piece eff glyph bc,
    board (state (game s)) (mkSquare (9 - Z.of_nat c) (Z.of_nat r)) = Some piece /\
    piece_type piece <> OU /\
    get_effective_piece_type (board (state (game s)))
      (mkSquare (9 - Z.of_nat c) (Z.of_nat r)) (color piece) = Ok (Some eff) /\
    _PIECE_KANJI !! value eff = Some glyph /\
    a = {| effective_type := value eff; effective_kanji := glyph |} /\
    js_board p !! r ≫= (.!! c) = Some (Some bc) /\
    cell_type bc = value (piece_type piece) /\
    effective_type a <> cell_type bc.
Proof.
  intros Hp Hr Hc Ha.
  destruct (payload_grids s p Hp) as [Hboard Hannan].
  rewrite Hannan, grid_lookup in Ha by done.
  rewrite Hboard, grid_lookup by done.
  unfold annotation in Ha.
  destruct (board (state (game s)) _) as [piece|] eqn:Hb; [|done].
  destruct (annan_cell_spec (state (game s))
              (mkSquare (9 - Z.of_nat c) (Z.of_nat r)) piece) as [Hiff Hcontent].
  assert (is_Some (annan_cell (state (game s))
                     (mkSquare (9 - Z.of_nat c) (Z.of_nat r)) piece)) as Hsome
    by (simplify_eq; by eexists).
  apply Hiff in Hsome as (Hou & eff & Hq & Hne).
  destruct (Hcontent eff Hou Hq Hne) as (glyph & Hg & Hcell).
  destruct (board_cell_of_total piece) as (g' & _ & _ & Hbc).
  exists piece, eff, glyph. eexists.
  cbn [mbind option_bind]. rewrite Hbc.
  assert (a = {| effective_type := value eff; effective_kanji := glyph |}) as ->
    by congruence.
  split_and!; try done.
  simpl. intros Heq%value_inj. done.
Qed.

Lemma annotation_content_witness :
  exists p piece eff glyph bc,
    _game_state_to_json (E := SampleServer.engine) SampleServer.server = Ok p /\
    board (state Sample.game) (mkSquare 2 6) = Some piece /\
    SampleServer.effective (board (state Sample.game)) (mkSquare 2 6) (color piece)
    = Ok (Some eff) /\
    _PIECE_KANJI !! value eff = Some glyph /\
    js_annan_info p !! 6%nat ≫= (.!! 7%nat)
    = Some (Some {| effective_type := "HI"; effective_kanji := "飛" |}) /\
    js_board p !! 6%nat ≫= (.!! 7%nat) = Some (Some bc) /\
    cell_type bc = value (piece_type piece) /\
    "HI" <> cell_type bc.
Proof.
  destruct (_game_state_to_json (E := SampleServer.engine) SampleServer.server)
    as [p|e] eqn:Hp; [|by vm_compute in Hp].
  assert (Ha : js_annan_info p !! 6%nat ≫= (.!! 7%nat)
               = Some (Some {| effective_type := "HI"; effective_kanji := "飛" |})).
  { vm_compute in Hp. by simplify_eq. }
  destruct (annotation_content (E := SampleServer.engine) SampleServer.server p
              6 7 _ Hp ltac:(lia) ltac:(lia) Ha)
    as (piece & eff & glyph & bc & Hb & _ & Hq & Hg & _ & Hbc & Hty & Hne).
  exists p, piece, eff, glyph, bc. split_and!; done.
Defined.

(** ** Hands *)

Lemma hand_dict_snoc (items : list (PieceType * Z)) (pt : PieceType) (n : Z) :
  hand_dict (items ++ [(pt, n)]) = <[value pt := n]> (hand_dict items).
Proof. unfold hand_dict. by rewrite foldl_app. Qed.

Lemma hand_dict_lookup (items : list (PieceType * Z)) (pt : PieceType) (n : Z) :
  NoDup items.*1 ->
  hand_dict items !! value pt = Some n <-> (pt, n) ∈ items.
Proof.
  induction items as [|[q k] items IH] using rev_ind; intros Hnd.
  - unfold hand_dict. simpl. rewrite lookup_empty, elem_of_nil. split; done.
  - rewrite fmap_app in Hnd. apply NoDup_app in Hnd as (Hnd & Hfresh & _).
    rewrite hand_dict_snoc, elem_of_app, list_elem_of_singleton.
    destruct (decide (q = pt)) as [->|Hne].
    + rewrite lookup_insert_eq. split.
      * intros ?. simplify_eq. by right.
      * intros [Hin|?]; [|by simplify_eq].
        exfalso. apply (Hfresh pt).
        -- apply list_elem_of_fmap. by exists (pt, n).
        -- simpl. by left.
    + rewrite lookup_insert_ne by (intros ?%value_inj; done).
      rewrite IH by done. split; [by left |].
      intros [?|?]; [done | by simplify_eq].
Qed.

(** In a payload the hand of each side maps the identifier of a kind to the
    count the engine's stand gives for that kind, and has no entry for a
    kind the stand does not list. *)
Theorem hands_by_kind `{E : RulesEngine} (s : Server) (p : Payload)
    (pt : PieceType) (n : Z) :
  _game_state_to_json s = Ok p ->
  NoDup (stand (game s) BLACK).*1 ->
  NoDup (stand (game s) WHITE).*1 ->
  (js_black_hand p !! value pt = Some n <-> (pt, n) ∈ stand (game s) BLACK) /\
  (js_white_hand p !! value pt = Some n <-> (pt, n) ∈ stand (game s) WHITE).
Proof.
  intros Hp Hb Hw.
  destruct (game_state_to_json_inv s) as (board_data & _ & Hjson).
  rewrite Hjson in Hp. unfold mbind, result_bind, mret, result_ret in Hp.
  destruct (_generate_kif_and_log _) as [[log kif]|]; simplify_eq. simpl.
  split; by apply hand_dict_lookup.
Qed.

Lemma hands_by_kind_witness :
  exists p,
    _game_state_to_json (E := SampleFaulty.engine) SampleServer.server = Ok p /\
    (js_black_hand p !! "FU" = Some 2 <-> (FU, 2) ∈ [(KA, 1); (FU, 2)]) /\
    (js_white_hand p !! "FU" = Some 2 <-> (FU, 2) ∈ ([] : list (PieceType * Z))).
Proof.
  destruct (_game_state_to_json (E := SampleFaulty.engine) SampleServer.server)
    as [p|e] eqn:Hp; [|by vm_compute in Hp].
  exists p. split; [done |].
  apply (hands_by_kind (E := SampleFaulty.engine) SampleServer.server p FU 2 Hp).
  - by apply (bool_decide_unpack _).
  - constructor.
Defined.

(** ** Failure of the projection *)

(** The projection fails exactly when the notation synthesizer does, with
    the same exception: neither the two grids, nor the legal moves, nor the
    hands can make it fail. *)
Theorem projection_fails_with_synthesizer `{E : RulesEngine} (s : Server) (e : exn) :
  _game_state_to_json s = Raise e <-> _generate_kif_and_log (game s) = Raise e.
Proof.
  destruct (game_state_to_json_inv s) as (board_data & _ & ->).
  unfold mbind, result_bind, mret, result_ret.
  destruct (_generate_kif_and_log _) as [[log kif]|e']; split; intros; by simplify_eq.
Qed.

Lemma projection_fails_with_synthesizer_witness :
  _game_state_to_json (E := SampleServer.engine)
    (mkServer (mkGame Sample.moves (take 4 Sample.snapshots) (state Sample.game) "ONGOING")
              None None)
  = Raise IndexError.
Proof.
  apply (projection_fails_with_synthesizer (E := SampleServer.engine)). reflexivity.
Defined.

(** * Further properties of the session controller *)

Ltac post_cases H :=
  unfold do_POST, try_except, mbind, result_bind, mret, result_ret, _json_response in H;
  repeat case_bool_decide; repeat case_match; simplify_eq.

(** A routed path is one of the six. *)
Ltac routed := subst; by apply (bool_decide_unpack _).

(** No path is at once routed and different from the six. *)
Ltac unrouted H :=
  repeat (apply elem_of_cons in H as [->|H]; [done |]); by apply elem_of_nil in H.

(** ** Responses *)

(** A response that carries a state payload has status 200, and its payload
    is the projection of the globals the request left behind: a following
    [GET /api/state] is answered with the very same response. *)
Theorem post_state_response `{E : RulesEngine} (path : string)
    (req : gmap string JsonValue) (s s' : Server) (r : Response) (p : Payload) :
  do_POST path req s = (s', Ok r) ->
  body r = StateJson p ->
  status r = 200 /\
  _game_state_to_json s' = Ok p /\
  do_GET "/api/state" s' = Ok (ApiResponse r).
Proof.
  intros H Hbody.
  post_cases H; simpl in Hbody; simplify_eq;
    (split; [done |]); (split; [done |]);
    unfold do_GET; rewrite bool_decide_eq_true_2 by done;
    unfold mbind, result_bind, mret, result_ret, _json_response;
    match goal with
    | Hj : _game_state_to_json _ = Ok _ |- _ => by rewrite Hj
    end.
Qed.

Lemma post_state_response_witness :
  exists s' r p,
    do_POST (E := SampleServer.engine) "/api/resign" ∅ SampleServer.server = (s', Ok r) /\
    body r = StateJson p /\
    status r = 200 /\
    js_result p = "WHITE_WIN" /\
    do_GET (E := SampleServer.engine) "/api/state" s' = Ok (ApiResponse r).
Proof.
  destruct (do_POST (E := SampleServer.engine) "/api/resign" ∅ SampleServer.server)
    as [s' [r|e]] eqn:Hpost; [|by vm_compute in Hpost].
  assert (Hr : exists p, body r = StateJson p /\ js_result p = "WHITE_WIN").
  { vm_compute in Hpost. injection Hpost as <- <-. eexists. split; reflexivity. }
  destruct Hr as (p & Hbody & Hres).
  destruct (post_state_response (E := SampleServer.engine) _ _ _ _ _ _ Hpost Hbody)
    as (Hstatus & Hjson & Hget).
  exists s', r, p. split_and!; done.
Defined.

(** Status and body go together: a state payload or a configuration
    answer comes with status 200, an error body with status 400 or 404,
    and 400 only on the routed paths. *)
Theorem post_status `{E : RulesEngine} (path : string)
    (req : gmap string JsonValue) (s s' : Server) (r : Response) :
  do_POST path req s = (s', Ok r) ->
  match body r with
  | StateJson _ => status r = 200
  | ConfigJson st _ => status r = 200 /\ st = "ok" /\ path = "/api/config"
  | ErrorJson _ => (status r = 400 /\ path ∈ api_paths) \/ (status r = 404 /\ s' = s)
  end.
Proof.
  intros H. unfold api_paths.
  post_cases H; simpl in *; simplify_eq;
    first [ done | by split_and! | left; split; [done | routed] | by right ].
Qed.

Lemma post_status_witness :
  exists r,
    do_POST (E := SampleServer.engine) "/api/undo" ∅ SampleServer.server
    = (SampleServer.server, Ok r) /\
    body r = ErrorJson "no move to undo" /\
    ((status r = 400 /\ "/api/undo" ∈ api_paths)
     \/ (status r = 404 /\ SampleServer.server = SampleServer.server)).
Proof.
  eexists. split; [reflexivity |]. split; [reflexivity |].
  exact (post_status (E := SampleServer.engine) "/api/undo" ∅ SampleServer.server
           SampleServer.server _ eq_refl).
Defined.

(** A path is answered with 404 and the unknown-endpoint message, the
    globals untouched, exactly when it is none of the six routed paths. *)
Theorem unknown_endpoint `{E : RulesEngine} (path : string)
    (req : gmap string JsonValue) (s : Server) :
  path ∉ api_paths <->
  do_POST path req s = (s, Ok (_json_response (ErrorJson "不明なエンドポイント") 404)).
Proof.
  unfold api_paths. split.
  - intros Hpath. unfold do_POST.
    repeat (case_bool_decide; [exfalso; apply Hpath; routed |]). done.
  - intros H Hpath. post_cases H; unrouted Hpath.
Qed.

Lemma unknown_endpoint_witness :
  do_POST (E := SampleServer.engine) "/api/state" ∅ SampleServer.server
  = (SampleServer.server, Ok (_json_response (ErrorJson "不明なエンドポイント") 404)).
Proof.
  apply (unknown_endpoint (E := SampleServer.engine)).
  by apply (bool_decide_unpack _).
Defined.

(** ** What a request leaves alone *)

(** No request changes the agent; only a configuration request changes the
    AI side assignment; a configuration request and a request on an unknown
    path leave the session alone. *)
Theorem post_frame `{E : RulesEngine} (path : string)
    (req : gmap string JsonValue) (s : Server) :
  ai_player (do_POST path req s).1 = ai_player s /\
  (path <> "/api/config" -> ai_color (do_POST path req s).1 = ai_color s) /\
  (path = "/api/config" \/ path ∉ api_paths -> game (do_POST path req s).1 = game s).
Proof.
  unfold api_paths, do_POST. split_and!.
  - repeat case_bool_decide; repeat case_match; done.
  - intros Hpath. repeat case_bool_decide; repeat case_match; done.
  - intros [->|Hpath].
    + repeat (case_bool_decide; [discriminate |]).
      case_bool_decide; [|done]. by repeat case_match.
    + repeat (case_bool_decide; [exfalso; apply Hpath; routed |]). done.
Qed.

Lemma post_frame_witness :
  ai_color (do_POST (E := SampleServer.engine) "/api/move"
              {[ "move" := JStr "7g7f" ]} SampleServer.server).1 = Some "WHITE" /\
  game (do_POST (E := SampleServer.engine) "/api/config"
          {[ "ai_mode" := JStr "black" ]} SampleServer.server).1 = Sample.game.
Proof.
  split.
  - apply (post_frame (E := SampleServer.engine) "/api/move"
             {[ "move" := JStr "7g7f" ]} SampleServer.server). discriminate.
  - apply (post_frame (E := SampleServer.engine) "/api/config"
             {[ "ai_mode" := JStr "black" ]} SampleServer.server). by left.
Defined.

(** A request is read only through the field of its operation: a move
    request through ["move"], a configuration request through ["ai_mode"],
    and the other requests not at all. *)
Theorem post_reads_its_field `{E : RulesEngine} (path : string)
    (req req' : gmap string JsonValue) (s : Server) :
  (path = "/api/move" -> req !! "move" = req' !! "move") ->
  (path = "/api/config" -> req !! "ai_mode" = req' !! "ai_mode") ->
  do_POST path req s = do_POST path req' s.
Proof.
  intros Hmove Hconfig. unfold do_POST, dict_get.
  case_bool_decide; [by rewrite Hmove |].
  repeat (case_bool_decide; [done |]).
  case_bool_decide; [by rewrite Hconfig |]. done.
Qed.

Lemma post_reads_its_field_witness :
  do_POST (E := SampleServer.engine) "/api/config"
    {[ "ai_mode" := JStr "black" ]} SampleServer.server
  = do_POST (E := SampleServer.engine) "/api/config"
      (<[ "move" := JStr "7g7f" ]> {[ "ai_mode" := JStr "black" ]}) SampleServer.server.
Proof.
  apply (post_reads_its_field (E := SampleServer.engine)); [discriminate |].
  intros _. reflexivity.
Defined.

(** ** Configuration, composed *)


Lemma config_globals `{E : RulesEngine} (req : gmap string JsonValue) (s : Server) :
  (do_POST "/api/config" req s).1
  = with_ai_color s (ai_color (do_POST "/api/config" req s).1).
Proof.
  unfold do_POST.
  repeat (case_bool_decide; [discriminate |]).
  case_bool_decide; [|done]. by repeat case_match.
Qed.

(** A configuration request changes nothing in what the state projection
    returns but the reported AI side assignment: the projection fails
    after it as it did before, and otherwise returns the payload of before
    with the new assignment. *)
Theorem configure_payload `{E : RulesEngine} (req : gmap string JsonValue)
    (s : Server) (p : Payload) :
  _game_state_to_json s = Ok p ->
  _game_state_to_json (do_POST "/api/config" req s).1
  = Ok {| js_board := js_board p;
          js_annan_info := js_annan_info p;
          js_turn := js_turn p;
          js_black_hand := js_black_hand p;
          js_white_hand := js_white_hand p;
          js_legal_moves := js_legal_moves p;
          js_in_check := js_in_check p;
          js_result := js_result p;
          js_ply := js_ply p;
          js_ai_enabled := js_ai_enabled p;
          js_ai_color := ai_color (do_POST "/api/config" req s).1;
          js_log := js_log p;
          js_kif := js_kif p |}.
Proof.
  intros Hp. rewrite config_globals at 1.
  generalize (ai_color (do_POST "/api/config" req s).1). intros c.
  unfold _game_state_to_json in *.
  cbn [game ai_color ai_player with_ai_color].
  rewrite rank_loop_cells in *.
  unfold mbind, result_bind, mret, result_ret in *.
  destruct (_generate_kif_and_log (game s)) as [[log kif]|]; by simplify_eq.
Qed.

Lemma configure_payload_witness :
  exists p,
    _game_state_to_json (E := SampleServer.engine) SampleServer.server = Ok p /\
    js_ai_color p = Some "WHITE" /\
    _game_state_to_json (E := SampleServer.engine)
      (do_POST (E := SampleServer.engine) "/api/config"
         {[ "ai_mode" := JStr "black" ]} SampleServer.server).1
    = Ok {| js_board := js_board p;
            js_annan_info := js_annan_info p;
            js_turn := js_turn p;
            js_black_hand := js_black_hand p;
            js_white_hand := js_white_hand p;
            js_legal_moves := js_legal_moves p;
            js_in_check := js_in_check p;
            js_result := js_result p;
            js_ply := js_ply p;
            js_ai_enabled := js_ai_enabled p;
            js_ai_color := Some "BLACK";
            js_log := js_log p;
            js_kif := js_kif p |}.
Proof.
  destruct (_game_state_to_json (E := SampleServer.engine) SampleServer.server)
    as [p|e] eqn:Hp; [|by vm_compute in Hp].
  exists p. split; [done |]. split.
  - vm_compute in Hp. by simplify_eq.
  - exact (configure_payload (E := SampleServer.engine)
             {[ "ai_mode" := JStr "black" ]} SampleServer.server p Hp).
Defined.

(** ** A move that is applied and then cannot be shown *)

(** The move and undo requests build their response inside the same [try]
    as the engine call: when the engine succeeds and the notation
    synthesizer then raises, the request is answered with status 400 and
    the text of that exception, and the globals hold the game the engine
    returned. *)
Theorem change_kept_when_response_fails `{E : RulesEngine}
    (req : gmap string JsonValue) (s : Server) (g' : Game) (e : exn) :
  _generate_kif_and_log g' = Raise e ->
  (apply (game s) (ArgJson (dict_get req "move" (JStr ""))) = Ok g' ->
     do_POST "/api/move" req s
     = (with_game s g', Ok (_json_response (ErrorJson (str_exn e)) 400))) /\
  (undo (game s) = Ok g' ->
     do_POST "/api/undo" req s
     = (with_game s g', Ok (_json_response (ErrorJson (str_exn e)) 400))).
Proof.
  intros Hgen.
  assert (Hjson : _game_state_to_json (with_game s g') = Raise e).
  { destruct (game_state_to_json_inv (with_game s g')) as (board_data & _ & ->).
    cbn [game with_game]. unfold mbind, result_bind. by rewrite Hgen. }
  split; intros Hcall; unfold do_POST.
  - rewrite bool_decide_eq_true_2 by done. by rewrite Hcall, Hjson.
  - rewrite bool_decide_eq_false_2 by discriminate.
    rewrite bool_decide_eq_true_2 by done. by rewrite Hcall, Hjson.
Qed.

Lemma change_kept_when_response_fails_witness :
  do_POST (E := SampleFaulty.engine) "/api/move" ∅ SampleServer.server
  = (with_game SampleServer.server
       (SampleFaulty.push Sample.game (DropMove FU (mkSquare 5 5))),
     Ok (_json_response (ErrorJson "list index out of range") 400)).
Proof.
  apply (change_kept_when_response_fails (E := SampleFaulty.engine) ∅
           SampleServer.server
           (SampleFaulty.push Sample.game (DropMove FU (mkSquare 5 5))) IndexError);
    reflexivity.
Defined.
